(** * Knowledge-graph visualisation: normalizer and component, embedded in Rocq

    The repository holds a data normalizer [transformNeo4jData] (twice, with
    the same text: in graph-visualization.js and in the batch conversion
    script) and a React/D3 component [GraphVisualization] (a JavaScript and a
    TypeScript variant).  This file embeds them as functions over JavaScript
    values with an explicit console and explicit exceptions. *)

From Stdlib Require Import List String Ascii ZArith QArith Bool Lia Arith.
From Stdlib Require Import DecimalString DecimalZ FinFun.
Import ListNotations.
Open Scope string_scope.
Open Scope list_scope.
Open Scope Z_scope.

(** ** JavaScript values *)

Set Warnings "-register-all".

(** The values [JSON.parse] and [response.json()] can produce, plus
    [undefined] (the value of an absent property).  A number is an integer in
    the range where [Number.prototype.toString] prints the decimal numeral
    (identifiers exported by the graph database are such integers).  An object
    is its list of own properties; reading a property takes the first binding
    of the key. *)
Inductive value : Type :=
| VUndefined
| VNull
| VBool (b : bool)
| VNum (n : Z)
| VStr (s : string)
| VArr (elems : list value)
| VObj (props : list (string * value)).

(** What a [throw] carries. *)
Inductive exn : Type :=
| JsError (message : string)
| JsTypeError
| JsSyntaxError.

(** Completion of an evaluation: a value, or an exception on its way up. *)
Inductive Completion (A : Type) : Type :=
| Normal (a : A)
| Throw (e : exn).
Arguments Normal {A} a.
Arguments Throw {A} e.

(** One call of [console.warn] or [console.error]. *)
Inductive diag : Type :=
| ConsoleWarn (msg : string) (arg : option value)
| ConsoleError (msg : string) (error : exn).

(** The console: every diagnostic emitted so far, oldest first. *)
Definition Console := list diag.

(** ** Computations that log and may throw *)

(** Over a state [S]: the state after, and how the evaluation completed.
    What was written to the state before a throw stays written. *)
Definition Eff (S A : Type) : Type := S -> S * Completion A.

(** The normalizer touches the console only. *)
Definition JS (A : Type) : Type := Eff Console A.

Definition ret {S A} (a : A) : Eff S A := fun c => (c, Normal a).

Definition throw {S A} (e : exn) : Eff S A := fun c => (c, Throw e).

Definition bind {S A B} (m : Eff S A) (k : A -> Eff S B) : Eff S B :=
  fun c =>
    match m c with
    | (c1, Normal a) => k a c1
    | (c1, Throw e) => (c1, Throw e)
    end.

Definition try_catch {S A} (body : Eff S A) (handler : exn -> Eff S A)
  : Eff S A :=
  fun c =>
    match body c with
    | (c1, Normal a) => (c1, Normal a)
    | (c1, Throw e) => handler e c1
    end.

Definition lift {S A} (r : Completion A) : Eff S A := fun c => (c, r).

Definition console_warn (msg : string) (arg : option value) : JS unit :=
  fun c => (c ++ [ConsoleWarn msg arg], Normal tt).

Definition console_error (msg : string) (error : exn) : JS unit :=
  fun c => (c ++ [ConsoleError msg error], Normal tt).

Declare Scope js_scope.
Delimit Scope js_scope with js.
Notation "x <- m ;; k" := (bind m (fun x => k))
  (at level 61, m at next level, right associativity) : js_scope.
Notation "m ;;; k" := (bind m (fun _ => k))
  (at level 61, right associativity) : js_scope.
Open Scope js_scope.

(** A computation is framed when what it logs and returns does not depend on
    what the console already holds. *)
Definition framed {A} (m : JS A) : Prop :=
  forall c, m c = (c ++ fst (m []), snd (m [])).

Ltac js_unfold :=
  unfold bind, lift, ret, throw, console_warn, console_error, try_catch in *.

(** [xs.map(f)] with a callback that may throw: stops at the first throw. *)
Fixpoint mapM {S A B} (f : A -> Eff S B) (xs : list A) : Eff S (list B) :=
  match xs with
  | [] => ret []
  | x :: rest => y <- f x ;; ys <- mapM f rest ;; ret (y :: ys)
  end.

(** [xs.forEach(f)] where the callback updates a local that it closes over. *)
Fixpoint forEach {A T} (f : T -> A -> JS T) (xs : list A) (s : T) : JS T :=
  match xs with
  | [] => ret s
  | x :: rest => s1 <- f s x ;; forEach f rest s1
  end.

(** ** Primitive operations on values *)

(** Truthiness, as [!v] and [v || d] test it. *)
Definition truthy (v : value) : bool :=
  match v with
  | VUndefined | VNull => false
  | VBool b => b
  | VNum n => negb (n =? 0)
  | VStr s => negb (String.eqb s "")
  | VArr _ | VObj _ => true
  end.

Definition typeof (v : value) : string :=
  match v with
  | VUndefined => "undefined"
  | VNull => "object"
  | VBool _ => "boolean"
  | VNum _ => "number"
  | VStr _ => "string"
  | VArr _ | VObj _ => "object"
  end.

Fixpoint own_property (props : list (string * value)) (key : string)
  : option value :=
  match props with
  | [] => None
  | (k, v) :: rest => if String.eqb k key then Some v else own_property rest key
  end.

(** [v.key] for the keys the source reads ([Source], [Target],
    [RelationshipType]): none of them is inherited from a prototype, none is
    an array index or a string index.  Reading a property of [null] or
    [undefined] throws a TypeError. *)
Definition getProp (v : value) (key : string) : Completion value :=
  match v with
  | VUndefined | VNull => Throw JsTypeError
  | VObj props =>
      match own_property props key with
      | Some x => Normal x
      | None => Normal VUndefined
      end
  | VBool _ | VNum _ | VStr _ | VArr _ => Normal VUndefined
  end.

(** [n.toString()] on a number: the decimal numeral, with a minus sign for a
    negative one. *)
Definition Number_toString (n : Z) : string :=
  NilZero.string_of_int (Z.to_int n).

Definition Completion_bind {A B} (r : Completion A) (k : A -> Completion B)
  : Completion B :=
  match r with
  | Normal a => k a
  | Throw e => Throw e
  end.

(** [v.toString()].  [null] and [undefined] have no properties; an array
    joins its elements with commas, printing [null] and [undefined] elements
    as the empty string; an object prints as [[object Object]] unless an own
    property shadows [toString], which then is not callable. *)
Fixpoint toString (v : value) : Completion string :=
  match v with
  | VUndefined | VNull => Throw JsTypeError
  | VBool b => Normal (if b then "true" else "false")
  | VNum n => Normal (Number_toString n)
  | VStr s => Normal s
  | VArr elems =>
      let element (x : value) : Completion string :=
        match x with
        | VUndefined | VNull => Normal ""
        | _ => toString x
        end in
      (fix join (l : list value) : Completion string :=
         match l with
         | [] => Normal ""
         | x :: rest =>
             match rest with
             | [] => element x
             | _ :: _ =>
                 Completion_bind (element x) (fun s =>
                 Completion_bind (join rest) (fun r =>
                 Normal (s ++ "," ++ r)%string))
             end
         end) elems
  | VObj props =>
      match own_property props "toString" with
      | Some _ => Throw JsTypeError
      | None => Normal "[object Object]"
      end
  end.

(** ** The normalizer's data *)

(** A node object: [{id, label, type}] as the normalizer builds it, plus the
    optional [size] and [color] the component reads ([interface Node]); a
    field the object lacks reads as [undefined], here [None]. *)
Record Node : Type := {
  id : string;
  label : string;
  node_type : string;
  size : option Q;
  color : option string
}.

(** A link object: [{source, target, type}] and the optional [weight]
    ([interface Link]).  [type] is [rel.RelationshipType || '关联'], so it
    holds whatever truthy value the record carried. *)
Record Link : Type := {
  source : string;
  target : string;
  link_type : value;
  weight : option Q
}.

Definition mkNode (i l t : string) : Node :=
  {| id := i; label := l; node_type := t; size := None; color := None |}.

Definition mkLink (s t : string) (ty : value) : Link :=
  {| source := s; target := t; link_type := ty; weight := None |}.

Record Graph : Type := mkGraph {
  nodes : list Node;
  links : list Link
}.

Definition empty_graph : Graph := {| nodes := []; links := [] |}.

(** A [Set] of numbers: insertion-ordered, [add] of a member changes
    nothing. *)
Definition NumSet := list Z.

Definition Set_has (s : NumSet) (n : Z) : bool := existsb (Z.eqb n) s.

Definition Set_add (s : NumSet) (n : Z) : NumSet :=
  if Set_has s n then s else s ++ [n].

(** ** transformNeo4jData *)

Definition invalid_relation_msg : string := "无效的关系数据:".
Definition not_an_array_msg : string := "输入数据必须是数组格式".
Definition transform_failed_msg : string := "数据转换失败:".
Definition default_link_type : value := VStr "关联".

(** The callback of [rawData.forEach]: the guard
    [!rel || typeof rel.Source !== 'number' || typeof rel.Target !== 'number']
    evaluated left to right (the case [VNum] is the [typeof] test), then the
    two [nodeIds.add]. *)
Definition collect_endpoints (nodeIds : NumSet) (rel : value) : JS NumSet :=
  let skip := console_warn invalid_relation_msg (Some rel) ;;; ret nodeIds in
  if negb (truthy rel) then skip
  else
    src <- lift (getProp rel "Source") ;;
    match src with
    | VNum s =>
        tgt <- lift (getProp rel "Target") ;;
        match tgt with
        | VNum t => ret (Set_add (Set_add nodeIds s) t)
        | _ => skip
        end
    | _ => skip
    end.

(** The callback of [Array.from(nodeIds).map]. *)
Definition node_of_id (n : Z) : Node :=
  {| id := Number_toString n;
     label := ("Node " ++ Number_toString n)%string;
     node_type := "Entity";
     size := None;
     color := None |}.

(** The callback of [rawData.map]: the three property initialisers in
    order. *)
Definition link_of_relation (rel : value) : JS Link :=
  src <- lift (getProp rel "Source") ;;
  s <- lift (toString src) ;;
  tgt <- lift (getProp rel "Target") ;;
  t <- lift (toString tgt) ;;
  ty <- lift (getProp rel "RelationshipType") ;;
  ret {| source := s;
         target := t;
         link_type := if truthy ty then ty else default_link_type;
         weight := None |}.

(** The body of the [try] block. *)
Definition transform_try (rawData : value) : JS Graph :=
  match rawData with
  | VArr records =>
      nodeIds <- forEach collect_endpoints records [] ;;
      let nodes := map node_of_id nodeIds in
      links <- mapM link_of_relation records ;;
      ret {| nodes := nodes; links := links |}
  | _ => throw (JsError not_an_array_msg)
  end.

(** The [catch] block. *)
Definition transform_catch (error : exn) : JS Graph :=
  console_error transform_failed_msg error ;;;
  ret empty_graph.

Definition transformNeo4jData (rawData : value) : JS Graph :=
  try_catch (transform_try rawData) transform_catch.

(** Records used by the scenarios. *)
Definition relation (s t : value) : value :=
  VObj [("Source", s); ("Target", t)].

Definition relation_typed (s t : value) (ty : string) : value :=
  VObj [("Source", s); ("Target", t); ("RelationshipType", VStr ty)].

(** ** What the specification calls a valid record *)

(** A record with both a numeric [Source] and a numeric [Target]: only an
    object can have them. *)
Definition numeric_endpoints (rel : value) : option (Z * Z) :=
  match rel with
  | VObj props =>
      match own_property props "Source", own_property props "Target" with
      | Some (VNum s), Some (VNum t) => Some (s, t)
      | _, _ => None
      end
  | _ => None
  end.

Definition has_numeric_endpoints (rel : value) : bool :=
  match numeric_endpoints rel with
  | Some _ => true
  | None => false
  end.

Definition valid_record_count (records : list value) : nat :=
  List.length (filter has_numeric_endpoints records).

(** The endpoints of the valid records, in the order the raw list gives
    them: source before target, record after record. *)
Definition endpoint_stream (records : list value) : list Z :=
  flat_map (fun rel =>
              match numeric_endpoints rel with
              | Some (s, t) => [s; t]
              | None => []
              end) records.

(** First-encounter order: every number once, at the place of its first
    occurrence ([seen] holds what came before). *)
Fixpoint first_encounter (seen : list Z) (l : list Z) : list Z :=
  match l with
  | [] => []
  | n :: rest =>
      if Set_has seen n then first_encounter seen rest
      else n :: first_encounter (seen ++ [n]) rest
  end.

(** The warning the [forEach] callback emits for a record, if any. *)
Definition warnings_for (records : list value) : Console :=
  flat_map (fun rel =>
              if has_numeric_endpoints rel then []
              else [ConsoleWarn invalid_relation_msg (Some rel)]) records.

(** The scenario of the specification with a malformed second record, and
    the same with a [null] second record. *)
Definition scenario_string_source : value :=
  VArr [relation (VNum 1) (VNum 2); relation (VStr "x") (VNum 2)].

Definition scenario_null_record : value :=
  VArr [relation (VNum 1) (VNum 2); VNull].

(** Calling the normalizer twice in a row, as one computation. *)
Definition normalize_twice (rawData : value) : JS (Graph * Graph) :=
  g1 <- transformNeo4jData rawData ;;
  g2 <- transformNeo4jData rawData ;;
  ret (g1, g2).

(** ** State access for the component *)

Definition get {S} : Eff S S := fun s => (s, Normal s).

Definition modify {S} (f : S -> S) : Eff S unit := fun s => (f s, Normal tt).

(** [l] with the element at index [j] replaced by its image under [f];
    nothing happens when [j] is out of range. *)
Fixpoint update_nth {A} (j : nat) (f : A -> A) (l : list A) : list A :=
  match l, j with
  | [], _ => []
  | a :: rest, O => f a :: rest
  | a :: rest, S j' => a :: update_nth j' f rest
  end.

(** ** The simulation, as the component sees it *)

(** What a drag handler receives: [event.active] (the number of other drag
    gestures in progress), [event.x] and [event.y]. *)
Record DragEvent : Type := {
  active : nat;
  event_x : Q;
  event_y : Q
}.

(** A node object once the simulation owns it: the datum and the kinematic
    fields the simulation adds.  A pin that is [null] or absent is [None]. *)
Record SimNode : Type := {
  datum : Node;
  x : Q;
  y : Q;
  vx : Q;
  vy : Q;
  fx : option Q;
  fy : option Q
}.

(** A link after resolution: its endpoints are the node objects themselves,
    here their indices in the simulation's node array. *)
Record SimLink : Type := {
  link_datum : Link;
  source_node : nat;
  target_node : nat
}.

(** [ticks_delivered] counts the calls of the tick listener. *)
Record Simulation : Type := {
  sim_nodes : list SimNode;
  sim_links : list SimLink;
  alphaTarget : Q;
  running : bool;
  listening : bool;
  ticks_delivered : nat
}.

Definition set_alphaTarget (a : Q) (sim : Simulation) : Simulation :=
  {| sim_nodes := sim_nodes sim; sim_links := sim_links sim;
     alphaTarget := a; running := running sim;
     listening := listening sim; ticks_delivered := ticks_delivered sim |}.

Definition restart (sim : Simulation) : Simulation :=
  {| sim_nodes := sim_nodes sim; sim_links := sim_links sim;
     alphaTarget := alphaTarget sim; running := true;
     listening := listening sim; ticks_delivered := ticks_delivered sim |}.

Definition set_nodes (ns : list SimNode) (sim : Simulation) : Simulation :=
  {| sim_nodes := ns; sim_links := sim_links sim;
     alphaTarget := alphaTarget sim; running := running sim;
     listening := listening sim; ticks_delivered := ticks_delivered sim |}.

Definition set_pin (px py : option Q) (d : SimNode) : SimNode :=
  {| datum := datum d; x := x d; y := y d; vx := vx d; vy := vy d;
     fx := px; fy := py |}.

(** ** The drag handlers *)

Definition reheat_alpha : Q := 3 # 10.

(** [.on("start", (event, d) => ...)]; [d] is node [j] of the simulation. *)
Definition dragstarted (event : DragEvent) (j : nat) (sim : Simulation)
  : Simulation :=
  let sim1 := if Nat.eqb (active event) 0
              then restart (set_alphaTarget reheat_alpha sim)
              else sim in
  set_nodes (update_nth j (fun d => set_pin (Some (x d)) (Some (y d)) d)
                        (sim_nodes sim1)) sim1.

(** [.on("drag", (event, d) => ...)]. *)
Definition dragged (event : DragEvent) (j : nat) (sim : Simulation)
  : Simulation :=
  set_nodes (update_nth j (set_pin (Some (event_x event))
                                   (Some (event_y event)))
                        (sim_nodes sim)) sim.

(** [.on("end", (event, d) => ...)]. *)
Definition dragended (event : DragEvent) (j : nat) (sim : Simulation)
  : Simulation :=
  let sim1 := if Nat.eqb (active event) 0
              then set_alphaTarget 0 sim
              else sim in
  set_nodes (update_nth j (set_pin None None) (sim_nodes sim1)) sim1.

(** ** The force engine *)

(** What the component takes from d3-force and this development leaves
    open: where a node is first placed, and where the forces and the velocity
    integration move a free node in one tick (new position, new velocity). *)
Record Engine : Type := {
  initial_position : nat -> Q * Q;
  motion : list SimNode -> list SimLink -> nat -> (Q * Q) * (Q * Q)
}.

Fixpoint index_of_id (i : string) (ns : list Node) : option nat :=
  match ns with
  | [] => None
  | n :: rest =>
      if String.eqb (id n) i then Some O
      else option_map S (index_of_id i rest)
  end.

(** Modelled from the spec: link resolution at simulation setup, which
    d3-force performs and the repository does not contain.  A link whose
    source or target cannot be resolved to a known node id is a setup-time
    fatal error for that run: the whole graph is rejected, the link is not
    dropped. *)
Definition resolve_link (ns : list Node) (l : Link) : Completion SimLink :=
  match index_of_id (source l) ns with
  | None => Throw (JsError ("node not found: " ++ source l)%string)
  | Some s =>
      match index_of_id (target l) ns with
      | None => Throw (JsError ("node not found: " ++ target l)%string)
      | Some t =>
          Normal {| link_datum := l; source_node := s; target_node := t |}
      end
  end.

Fixpoint resolve_links (ns : list Node) (ls : list Link)
  : Completion (list SimLink) :=
  match ls with
  | [] => Normal []
  | l :: rest =>
      Completion_bind (resolve_link ns l) (fun r =>
      Completion_bind (resolve_links ns rest) (fun rs =>
      Normal (r :: rs)))
  end.

Fixpoint place (engine : Engine) (k : nat) (ns : list Node) : list SimNode :=
  match ns with
  | [] => []
  | n :: rest =>
      {| datum := n;
         x := fst (initial_position engine k);
         y := snd (initial_position engine k);
         vx := 0; vy := 0; fx := None; fy := None |}
      :: place engine (S k) rest
  end.

(** Modelled from the spec: [d3.forceSimulation(nodes).force("link", ...)]
    and the further forces, as one setup step.  Either every link resolves
    and a running simulation over the placed nodes results (target alpha 0,
    no listener yet), or the setup throws and no simulation starts. *)
Definition forceSimulation (engine : Engine) (data : Graph)
  : Completion Simulation :=
  Completion_bind (resolve_links (nodes data) (links data)) (fun ls =>
  Normal {| sim_nodes := place engine 0 (nodes data);
            sim_links := ls;
            alphaTarget := 0;
            running := true;
            listening := false;
            ticks_delivered := 0 |}).

(** Modelled from the spec: one tick on one node.  A pinned coordinate is
    forced to the pin value whatever the velocity; a free coordinate goes
    where the engine's forces and velocity integration take it. *)
Definition tick_node (engine : Engine) (sim : Simulation) (k : nat)
           (d : SimNode) : SimNode :=
  let '((nx, ny), (nvx, nvy)) := motion engine (sim_nodes sim) (sim_links sim) k in
  {| datum := datum d;
     x := match fx d with Some p => p | None => nx end;
     y := match fy d with Some p => p | None => ny end;
     vx := match fx d with Some _ => 0 | None => nvx end;
     vy := match fy d with Some _ => 0 | None => nvy end;
     fx := fx d;
     fy := fy d |}.

Fixpoint tick_nodes (engine : Engine) (sim : Simulation) (k : nat)
         (ns : list SimNode) : list SimNode :=
  match ns with
  | [] => []
  | d :: rest => tick_node engine sim k d :: tick_nodes engine sim (S k) rest
  end.

Definition tick (engine : Engine) (sim : Simulation) : Simulation :=
  set_nodes (tick_nodes engine sim 0 (sim_nodes sim)) sim.

(** ** The drawing surface *)

(** The three groups one load appends to the svg element: the data bound to
    the lines, circles and labels, and the geometry the tick listener last
    wrote (nothing before the first tick). *)
Record Layer : Type := {
  layer_simulation : nat;
  line_data : list Link;
  circle_data : list Node;
  label_text : list string;
  circle_at : list (Q * Q);
  label_at : list (Q * Q);
  line_at : list ((Q * Q) * (Q * Q))
}.

Record Svg : Type := {
  width : option Z;
  height : option Z;
  background : option string;
  layers : list Layer
}.

Definition blank_svg : Svg :=
  {| width := None; height := None; background := None; layers := [] |}.

(** [d.size || 10] and [d.color || "#6495ed"]. *)
Definition circle_r (d : Node) : Q :=
  match size d with
  | Some r => if Qeq_bool r 0 then 10 else r
  | None => 10
  end.

Definition circle_fill (d : Node) : string :=
  match color d with
  | Some c => if String.eqb c "" then "#6495ed" else c
  | None => "#6495ed"
  end.

(** The label template [`${d.label} [${d.type}]`]. *)
Definition label_of (d : Node) : string :=
  (label d ++ " [" ++ node_type d ++ "]")%string.

(** What the component can reach: the ref, the svg element (it outlives the
    ref: the closures of a load keep their selections), every simulation
    created so far, and the console. *)
Record View : Type := {
  svgRef_current : bool;
  svg : Svg;
  simulations : list Simulation;
  console : Console
}.

Definition set_console (c : Console) (v : View) : View :=
  {| svgRef_current := svgRef_current v; svg := svg v;
     simulations := simulations v; console := c |}.

Definition set_simulations (sims : list Simulation) (v : View) : View :=
  {| svgRef_current := svgRef_current v; svg := svg v;
     simulations := sims; console := console v |}.

Definition set_svg (s : Svg) (v : View) : View :=
  {| svgRef_current := svgRef_current v; svg := s;
     simulations := simulations v; console := console v |}.

Definition set_svgRef (b : bool) (v : View) : View :=
  {| svgRef_current := b; svg := svg v;
     simulations := simulations v; console := console v |}.

(** A console computation run inside the component. *)
Definition on_console {A} (m : JS A) : Eff View A :=
  fun v => let '(c, r) := m (console v) in (set_console c v, r).

Definition position (d : SimNode) : Q * Q := (x d, y d).

Definition node_position (sim : Simulation) (k : nat) : Q * Q :=
  match nth_error (sim_nodes sim) k with
  | Some d => position d
  | None => (0%Q, 0%Q)
  end.

(** The tick listener of one load: the lines' [x1,y1,x2,y2] from the links'
    endpoint nodes, the circles' [cx,cy] and the labels' [x,y] from the
    nodes. *)
Definition draw (sim : Simulation) (l : Layer) : Layer :=
  {| layer_simulation := layer_simulation l;
     line_data := line_data l;
     circle_data := circle_data l;
     label_text := label_text l;
     circle_at := map position (sim_nodes sim);
     label_at := map position (sim_nodes sim);
     line_at := map (fun k => (node_position sim (source_node k),
                               node_position sim (target_node k)))
                    (sim_links sim) |}.

(** ** Setting up one graph (both variants of the component) *)

Definition svg_width : Z := 1200.
Definition svg_height : Z := 800.
Definition svg_background : string := "#f0f8ff".

(** From [d3.forceSimulation] to [simulation.on("tick", ...)].  The
    simulation is set up first; when that throws nothing below it runs.  A
    selection made from a [null] ref is empty, so nothing is appended then. *)
Definition setup_graph (engine : Engine) (data : Graph) : Eff View unit :=
  simulation <- lift (forceSimulation engine data) ;;
  v <- get ;;
  let k := List.length (simulations v) in
  modify (set_simulations (simulations v ++ [simulation])) ;;;
  (if svgRef_current v
   then modify (set_svg
          {| width := Some svg_width;
             height := Some svg_height;
             background := Some svg_background;
             layers := layers (svg v) ++
                       [{| layer_simulation := k;
                           line_data := links data;
                           circle_data := nodes data;
                           label_text := map label_of (nodes data);
                           circle_at := [];
                           label_at := [];
                           line_at := [] |}] |})
   else ret tt) ;;;
  modify (fun v1 =>
    set_simulations
      (update_nth k (fun s =>
         {| sim_nodes := sim_nodes s; sim_links := sim_links s;
            alphaTarget := alphaTarget s; running := running s;
            listening := true; ticks_delivered := ticks_delivered s |})
         (simulations v1)) v1).

(** ** The two variants of the load *)

(** How the awaited [fetch] ended: the promise rejected, or a response
    arrived with a status and a body ([json = None]: the body is not JSON and
    [response.json()] rejects). *)
Inductive fetch_outcome (P : Type) : Type :=
| Rejected (e : exn)
| Responded (status : Z) (json : option P).
Arguments Rejected {P} e.
Arguments Responded {P} status json.

(** [response.ok]. *)
Definition response_ok (status : Z) : bool :=
  (200 <=? status) && (status <=? 299).

Definition no_nodes_msg : string := "未加载到有效节点数据".
Definition render_failed_msg : string := "可视化渲染失败:".
Definition render_error_msg : string := "可视化渲染错误:".

Definition http_failed (status : Z) : exn :=
  JsError ("HTTP 请求失败: " ++ Number_toString status)%string.

(** graph-visualization.js, [renderGraph] from the awaited [fetch] on: the
    status check, the body, the normalizer, the empty-graph guard, the
    setup; every throw ends in the catch block. *)
Definition renderGraph_resume (engine : Engine)
           (outcome : fetch_outcome value) : Eff View unit :=
  try_catch
    (match outcome with
     | Rejected e => throw e
     | Responded status json =>
         if negb (response_ok status) then throw (http_failed status)
         else
           match json with
           | None => throw JsSyntaxError
           | Some rawData =>
               data <- on_console (transformNeo4jData rawData) ;;
               if Nat.eqb (List.length (nodes data)) 0
               then on_console (console_warn no_nodes_msg None)
               else setup_graph engine data
           end
     end)
    (fun error => on_console (console_error render_failed_msg error)).

(** The TypeScript component, [loadAndRender] from the awaited [fetch] on.
    The body is taken at its declared type [{nodes: Node[]; links: Link[]}];
    the status is not looked at. *)
Definition loadAndRender_resume (engine : Engine)
           (outcome : fetch_outcome Graph) : Eff View unit :=
  try_catch
    (match outcome with
     | Rejected e => throw e
     | Responded status json =>
         match json with
         | None => throw JsSyntaxError
         | Some data =>
             if Nat.eqb (List.length (nodes data)) 0
             then ret tt
             else setup_graph engine data
         end
     end)
    (fun error => on_console (console_error render_error_msg error)).

(** ** The life of one mounted component *)

(** A call of the async function that is waiting for its [fetch]: the url
    it was started with, and whether it is still waiting. *)
Record Request : Type := {
  request_url : string;
  in_flight : bool
}.

Inductive phase : Type := BeforeMount | Mounted | Unmounted.

(** [unhandled] collects what would reach the page's global handler: the
    exceptions an async call lets escape. *)
Record Page : Type := {
  dataUrl : string;
  stage : phase;
  requests : list Request;
  view : View;
  unhandled : list exn
}.

Definition initial_page (url : string) : Page :=
  {| dataUrl := url;
     stage := BeforeMount;
     requests := [];
     view := {| svgRef_current := false; svg := blank_svg;
                simulations := []; console := [] |};
     unhandled := [] |}.

Definition set_view (v : View) (p : Page) : Page :=
  {| dataUrl := dataUrl p; stage := stage p; requests := requests p;
     view := v; unhandled := unhandled p |}.

Definition set_requests (rs : list Request) (p : Page) : Page :=
  {| dataUrl := dataUrl p; stage := stage p; requests := rs;
     view := view p; unhandled := unhandled p |}.

Definition set_dataUrl (url : string) (p : Page) : Page :=
  {| dataUrl := url; stage := stage p; requests := requests p;
     view := view p; unhandled := unhandled p |}.

Definition set_stage (ph : phase) (p : Page) : Page :=
  {| dataUrl := dataUrl p; stage := ph; requests := requests p;
     view := view p; unhandled := unhandled p |}.

(** What the environment does to the component: React mounts it, passes a
    new [dataUrl], unmounts it; a fetch settles; d3's timer fires for a
    simulation or stops it once it has settled; the user drags a circle. *)
Inductive event (P : Type) : Type :=
| Mount
| SetDataUrl (url : string)
| Unmount
| FetchSettled (request : nat) (outcome : fetch_outcome P)
| TimerTick (simulation : nat)
| TimerStop (simulation : nat)
| DragStart (simulation node : nat) (e : DragEvent)
| DragMove (simulation node : nat) (e : DragEvent)
| DragEnd (simulation node : nat) (e : DragEvent).
Arguments Mount {P}.
Arguments SetDataUrl {P} url.
Arguments Unmount {P}.
Arguments FetchSettled {P} request outcome.
Arguments TimerTick {P} simulation.
Arguments TimerStop {P} simulation.
Arguments DragStart {P} simulation node e.
Arguments DragMove {P} simulation node e.
Arguments DragEnd {P} simulation node e.

(** The effect callback: it calls the async function, which checks the ref
    and starts the fetch; it returns nothing, so React has no cleanup to run
    for it. *)
Definition run_effect (p : Page) : Page :=
  if svgRef_current (view p)
  then set_requests
         (requests p ++ [{| request_url := dataUrl p; in_flight := true |}]) p
  else p.

(** One firing of a simulation's timer: the engine ticks, then the listener
    (when one is subscribed) redraws the layers of that simulation. *)
Definition timer_tick (engine : Engine) (k : nat) (v : View) : View :=
  match nth_error (simulations v) k with
  | Some sim =>
      if running sim then
        let sim1 := tick engine sim in
        if listening sim1 then
          let sim2 :=
            {| sim_nodes := sim_nodes sim1; sim_links := sim_links sim1;
               alphaTarget := alphaTarget sim1; running := running sim1;
               listening := listening sim1;
               ticks_delivered := S (ticks_delivered sim1) |} in
          set_svg
            {| width := width (svg v); height := height (svg v);
               background := background (svg v);
               layers := map (fun l => if Nat.eqb (layer_simulation l) k
                                       then draw sim2 l else l)
                             (layers (svg v)) |}
            (set_simulations (update_nth k (fun _ => sim2) (simulations v)) v)
        else set_simulations (update_nth k (fun _ => sim1) (simulations v)) v
      else v
  | None => v
  end.

(** The timer stops by itself once alpha has decayed, which takes a target
    alpha of 0. *)
Definition timer_stop (k : nat) (v : View) : View :=
  set_simulations
    (update_nth k (fun sim =>
       if Qeq_bool (alphaTarget sim) 0
       then {| sim_nodes := sim_nodes sim; sim_links := sim_links sim;
               alphaTarget := alphaTarget sim; running := false;
               listening := listening sim;
               ticks_delivered := ticks_delivered sim |}
       else sim) (simulations v)) v.

Definition on_simulation (k : nat) (f : Simulation -> Simulation) (v : View)
  : View :=
  set_simulations (update_nth k f (simulations v)) v.

Section Lifecycle.

Variable P : Type.
Variable engine : Engine.

(** The async function from its awaited fetch on. *)
Variable resume : fetch_outcome P -> Eff View unit.

Definition settle (k : nat) (outcome : fetch_outcome P) (p : Page) : Page :=
  match nth_error (requests p) k with
  | Some r =>
      if in_flight r then
        let p1 := set_requests
                    (update_nth k (fun r0 =>
                       {| request_url := request_url r0;
                          in_flight := false |}) (requests p)) p in
        match resume outcome (view p1) with
        | (v, Normal _) => set_view v p1
        | (v, Throw e) =>
            {| dataUrl := dataUrl p1; stage := stage p1;
               requests := requests p1; view := v;
               unhandled := unhandled p1 ++ [e] |}
        end
      else p
  | None => p
  end.

Definition step (p : Page) (ev : event P) : Page :=
  match ev with
  | Mount =>
      match stage p with
      | BeforeMount =>
          run_effect (set_view (set_svgRef true (view p))
                               (set_stage Mounted p))
      | _ => p
      end
  | SetDataUrl url =>
      match stage p with
      | Mounted =>
          if String.eqb url (dataUrl p) then p
          else run_effect (set_dataUrl url p)
      | _ => p
      end
  | Unmount =>
      match stage p with
      | Mounted =>
          set_view (set_svgRef false (view p)) (set_stage Unmounted p)
      | _ => p
      end
  | FetchSettled k outcome => settle k outcome p
  | TimerTick k => set_view (timer_tick engine k (view p)) p
  | TimerStop k => set_view (timer_stop k (view p)) p
  | DragStart k j e => set_view (on_simulation k (dragstarted e j) (view p)) p
  | DragMove k j e => set_view (on_simulation k (dragged e j) (view p)) p
  | DragEnd k j e => set_view (on_simulation k (dragended e j) (view p)) p
  end.

Definition run (p : Page) (trace : list (event P)) : Page :=
  fold_left step trace p.

End Lifecycle.

(** The two components. *)
Definition js_run (engine : Engine) :=
  run value engine (renderGraph_resume engine).

Definition tsx_run (engine : Engine) :=
  run Graph engine (loadAndRender_resume engine).

(** ** Concrete inputs for the scenarios *)

(** An engine that places node [k] at [(k, 0)] and leaves free nodes where
    they are. *)
Definition still_engine : Engine :=
  {| initial_position := fun k => (inject_Z (Z.of_nat k), 0%Q);
     motion := fun ns _ k =>
                 match nth_error ns k with
                 | Some d => ((x d, y d), (0%Q, 0%Q))
                 | None => ((0%Q, 0%Q), (0%Q, 0%Q))
                 end |}.

(** A view right after mount: ref attached, nothing drawn, nothing logged. *)
Definition mounted_view : View :=
  {| svgRef_current := true; svg := blank_svg;
     simulations := []; console := [] |}.

Definition graph_one_two : Graph :=
  {| nodes := [mkNode "1" "Node 1" "Entity"; mkNode "2" "Node 2" "Entity"];
     links := [mkLink "1" "2" (VStr "KNOWS")] |}.

(** No node at all, and a link between two ids nothing declares. *)
Definition graph_links_only : Graph :=
  {| nodes := []; links := [mkLink "a" "b" (VStr "KNOWS")] |}.

Definition raw_one_two : value :=
  VArr [relation_typed (VNum 1) (VNum 2) "KNOWS"].

(** One node resting at (10, 20) in a simulation another gesture has
    already reheated. *)
Definition resting_node : SimNode :=
  {| datum := mkNode "1" "Node 1" "Entity";
     x := 10; y := 20; vx := 0; vy := 0; fx := None; fy := None |}.

Definition reheated_simulation : Simulation :=
  {| sim_nodes := [resting_node]; sim_links := [];
     alphaTarget := reheat_alpha; running := true; listening := true;
     ticks_delivered := 0 |}.

Definition pointer_at (a : nat) (px py : Q) : DragEvent :=
  {| active := a; event_x := px; event_y := py |}.

(** A link has an endpoint that is the id of no node. *)
Definition has_unresolvable_link (g : Graph) : Prop :=
  exists l, In l (links g) /\
            (~ In (source l) (map id (nodes g)) \/
             ~ In (target l) (map id (nodes g))).

(** A transport failure: the fetch rejected, or the response carries a
    non-success status. *)
Definition transport_failure {P} (outcome : fetch_outcome P) : bool :=
  match outcome with
  | Rejected _ => true
  | Responded status _ => negb (response_ok status)
  end.

(** The exception a transport failure raises in [renderGraph]. *)
Definition transport_error {P} (outcome : fetch_outcome P) : exn :=
  match outcome with
  | Rejected e => e
  | Responded status _ => http_failed status
  end.

(** The traces of the teardown scenarios: a load for [/a.json] that settles
    after the prop has moved on to [/b.json]; and a loaded graph whose timer
    fires after a prop change and again after the unmount. *)
Definition stale_settle_trace : list (event value) :=
  [Mount; SetDataUrl "/b.json";
   FetchSettled 0 (Responded 200 (Some raw_one_two))].

Definition tick_after_teardown_trace : list (event value) :=
  [Mount; FetchSettled 0 (Responded 200 (Some raw_one_two));
   SetDataUrl "/b.json"; TimerTick 0; Unmount; TimerTick 0].

(** ** The batch conversion script *)

(** What the script takes from its runtime: [JSON.parse], [JSON.stringify]
    (with its indentation argument) on a graph, and [__dirname], the absolute
    path of the script's directory. *)
Record ScriptEnv : Type := {
  JSON_parse : string -> Completion value;
  JSON_stringify : Graph -> string;
  dirname : string
}.

(** The world the script runs in: the files by path, the paths that cannot
    be written, the diagnostics of [console.warn] and [console.error], and
    the lines of [console.log]. *)
Record World : Type := {
  files : list (string * string);
  read_only : list string;
  diagnostics : Console;
  stdout : list string
}.

Definition set_files (fs : list (string * string)) (w : World) : World :=
  {| files := fs; read_only := read_only w;
     diagnostics := diagnostics w; stdout := stdout w |}.

Definition set_diagnostics (c : Console) (w : World) : World :=
  {| files := files w; read_only := read_only w;
     diagnostics := c; stdout := stdout w |}.

Definition set_stdout (out : list string) (w : World) : World :=
  {| files := files w; read_only := read_only w;
     diagnostics := diagnostics w; stdout := out |}.

Fixpoint file_content (fs : list (string * string)) (path : string)
  : option string :=
  match fs with
  | [] => None
  | (p, text) :: rest =>
      if String.eqb p path then Some text else file_content rest path
  end.

(** [path.resolve(__dirname, relative)]. *)
Definition path_resolve (dir relative : string) : string :=
  (dir ++ "/" ++ relative)%string.

Definition INPUT_PATH (env : ScriptEnv) : string :=
  path_resolve (dirname env)
               "public/data/neo4j_query_table_data_2025-3-19.json".

Definition OUTPUT_PATH (env : ScriptEnv) : string :=
  path_resolve (dirname env) "public/data/graph_data.json".

(** [fs.readFileSync(path, 'utf8')]: throws when there is no such file. *)
Definition readFileSync (path : string) : Eff World string :=
  fun w =>
    match file_content (files w) path with
    | Some text => (w, Normal text)
    | None => (w, Throw (JsError ("ENOENT: " ++ path)%string))
    end.

(** [fs.writeFileSync(path, text)]: throws when the path cannot be written,
    otherwise the file holds [text] from now on. *)
Definition writeFileSync (path text : string) : Eff World unit :=
  fun w =>
    if existsb (String.eqb path) (read_only w)
    then (w, Throw (JsError ("EACCES: " ++ path)%string))
    else (set_files ((path, text) :: files w) w, Normal tt).

Definition console_log (line : string) : Eff World unit :=
  fun w => (set_stdout (stdout w ++ [line]) w, Normal tt).

(** A console computation run inside the script. *)
Definition on_diagnostics {A} (m : JS A) : Eff World A :=
  fun w => let '(c, r) := m (diagnostics w) in (set_diagnostics c w, r).

Definition script_failed_msg : string := "数据处理出错:".
Definition script_done_msg : string := "数据转换成功！".

Definition success_report (env : ScriptEnv) : list string :=
  [script_done_msg;
   ("- 输入文件: " ++ INPUT_PATH env)%string;
   ("- 输出文件: " ++ OUTPUT_PATH env)%string].

(** The script's top-level [try]/[catch]: read, parse, transform, write,
    report. *)
Definition conversion_script (env : ScriptEnv) : Eff World unit :=
  try_catch
    (text <- readFileSync (INPUT_PATH env) ;;
     rawData <- lift (JSON_parse env text) ;;
     transformedData <- on_diagnostics (transformNeo4jData rawData) ;;
     writeFileSync (OUTPUT_PATH env) (JSON_stringify env transformedData) ;;;
     console_log script_done_msg ;;;
     console_log ("- 输入文件: " ++ INPUT_PATH env)%string ;;;
     console_log ("- 输出文件: " ++ OUTPUT_PATH env)%string)
    (fun error => on_diagnostics (console_error script_failed_msg error)).

(** The graph the normalizer returns for a raw value (it always returns
    one) and what it logs, starting from an empty console. *)
Definition normalized (rawData : value) : Graph :=
  match snd (transformNeo4jData rawData []) with
  | Normal g => g
  | Throw _ => empty_graph
  end.

Definition normalizer_log (rawData : value) : Console :=
  fst (transformNeo4jData rawData []).

(** A record has no usable value under [key]: the record is [null] or
    [undefined], or the property is absent, [null] or [undefined]. *)
Definition endpoint_missing (rel : value) (key : string) : bool :=
  match getProp rel key with
  | Normal VUndefined | Normal VNull | Throw _ => true
  | Normal _ => false
  end.

(** One whole drag gesture on node [j]: a start, the moves in order, an
    end. *)
Definition gesture (start : DragEvent) (moves : list DragEvent)
           (finish : DragEvent) (j : nat) (sim : Simulation) : Simulation :=
  dragended finish j
    (fold_left (fun s e => dragged e j s) moves (dragstarted start j sim)).

(** A toy runtime for the scenarios: it parses the text ["[]"] and nothing
    else, and prints every graph as ["{}"]. *)
Definition toy_env : ScriptEnv :=
  {| JSON_parse := fun text =>
       if String.eqb text "[]" then Normal (VArr []) else Throw JsSyntaxError;
     JSON_stringify := fun _ => "{}";
     dirname := "/app" |}.

(** Induction on values that reaches the elements of an array. *)
Fixpoint value_array_ind (P : value -> Prop)
         (Hundef : P VUndefined) (Hnull : P VNull)
         (Hbool : forall b, P (VBool b)) (Hnum : forall n, P (VNum n))
         (Hstr : forall s, P (VStr s))
         (Harr : forall elems, Forall P elems -> P (VArr elems))
         (Hobj : forall props, P (VObj props))
         (v : value) {struct v} : P v :=
  match v with
  | VUndefined => Hundef
  | VNull => Hnull
  | VBool b => Hbool b
  | VNum n => Hnum n
  | VStr s => Hstr s
  | VArr elems =>
      Harr elems
        ((fix all (l : list value) : Forall P l :=
            match l with
            | [] => Forall_nil P
            | x :: rest =>
                Forall_cons x
                  (value_array_ind P Hundef Hnull Hbool Hnum Hstr Harr Hobj x)
                  (all rest)
            end) elems)
  | VObj props => Hobj props
  end.

(** Everything of a node object but its pin. *)
Definition unpinned_part (d : SimNode) : Node * (Q * Q) * (Q * Q) :=
  (datum d, (x d, y d), (vx d, vy d)).

(** What a layer was created with: the simulation it belongs to and the data
    bound to its lines, circles and labels. *)
Definition bound_data (l : Layer)
  : nat * list Link * list Node * list string :=
  (layer_simulation l, line_data l, circle_data l, label_text l).

(** A simulation with its tick listener subscribed, and the layer a load
    creates for simulation [k]: the terms [setup_graph] builds. *)
Definition subscribed (s : Simulation) : Simulation :=
  {| sim_nodes := sim_nodes s; sim_links := sim_links s;
     alphaTarget := alphaTarget s; running := running s;
     listening := true; ticks_delivered := ticks_delivered s |}.

Definition fresh_layer (k : nat) (data : Graph) : Layer :=
  {| layer_simulation := k;
     line_data := links data;
     circle_data := nodes data;
     label_text := map label_of (nodes data);
     circle_at := [];
     label_at := [];
     line_at := [] |}.

Definition with_layer (l : Layer) (s : Svg) : Svg :=
  {| width := Some svg_width;
     height := Some svg_height;
     background := Some svg_background;
     layers := layers s ++ [l] |}.

(** Nothing was taken away between two views: at least as many
    simulations, and the layers of before, with the data bound to them,
    still there in front of any new ones. *)
Definition nothing_removed (before after : View) : Prop :=
  (List.length (simulations before) <= List.length (simulations after))%nat /\
  exists extra,
    map bound_data (layers (svg after))
    = map bound_data (layers (svg before)) ++ extra.

(** [console.warn] as against [console.error]. *)
Definition is_warning (d : diag) : bool :=
  match d with
  | ConsoleWarn _ _ => true
  | ConsoleError _ _ => false
  end.

(** A valid record followed by a record without a [Target]. *)
Definition scenario_missing_target : value :=
  VArr [relation (VNum 1) (VNum 2); VObj [("Source", VNum 2)]].

(** Whether a settled fetch takes [renderGraph] as far as the simulation
    setup: the response is accepted, its body is JSON, and the normalized
    graph has a node. *)
Definition reaches_setup (outcome : fetch_outcome value) : bool :=
  match outcome with
  | Responded status (Some rawData) =>
      response_ok status &&
      negb (Nat.eqb (List.length (nodes (normalized rawData))) 0)
  | _ => false
  end.


(** A load logged something, and the last diagnostic is the component's
    own: its error, or (for the variant that has one) its warning. *)
Definition ends_with_own_diagnostic (own_warning : bool) (error_msg : string)
           (v v' : View) : Prop :=
  exists earlier last,
    console v' = console v ++ earlier ++ [last] /\
    ((own_warning = true /\ last = ConsoleWarn no_nodes_msg None) \/
     exists e, last = ConsoleError error_msg e).

(** A load that ends in such a diagnostic and changes nothing else. *)
Definition only_logged (own_warning : bool) (error_msg : string)
           (v v' : View) : Prop :=
  svgRef_current v' = svgRef_current v /\
  simulations v' = simulations v /\
  svg v' = svg v /\
  ends_with_own_diagnostic own_warning error_msg v v'.

(** * Theorems *)

Example normalize_knows :
  transformNeo4jData (VArr [relation_typed (VNum 1) (VNum 2) "KNOWS"]) [] =
  ([], Normal {| nodes := [mkNode "1" "Node 1" "Entity";
                           mkNode "2" "Node 2" "Entity"];
                 links := [mkLink "1" "2" (VStr "KNOWS")] |}).
Proof. reflexivity. Qed.

(** ** The console is only ever appended to *)

Lemma framed_ret {A} (a : A) : framed (ret a).
Proof. intro c. js_unfold. simpl. now rewrite app_nil_r. Qed.

Lemma framed_throw {A} (e : exn) : framed (@throw Console A e).
Proof. intro c. js_unfold. simpl. now rewrite app_nil_r. Qed.

Lemma framed_lift {A} (r : Completion A) : framed (lift r).
Proof. intro c. js_unfold. simpl. now rewrite app_nil_r. Qed.

Lemma framed_console_warn msg arg : framed (console_warn msg arg).
Proof. intro c. reflexivity. Qed.

Lemma framed_console_error msg e : framed (console_error msg e).
Proof. intro c. reflexivity. Qed.

Lemma framed_bind {A B} (m : JS A) (k : A -> JS B) :
  framed m -> (forall a, framed (k a)) -> framed (bind m k).
Proof.
  intros Hm Hk c. unfold bind.
  rewrite (Hm c). destruct (m []) as [l [a | e]]; simpl.
  - rewrite (Hk a (c ++ l)), (Hk a l). simpl. now rewrite app_assoc.
  - reflexivity.
Qed.

Lemma framed_try_catch {A} (m : JS A) (h : exn -> JS A) :
  framed m -> (forall e, framed (h e)) -> framed (try_catch m h).
Proof.
  intros Hm Hh c. unfold try_catch.
  rewrite (Hm c). destruct (m []) as [l [a | e]]; simpl.
  - reflexivity.
  - rewrite (Hh e (c ++ l)), (Hh e l). simpl. now rewrite app_assoc.
Qed.

Lemma framed_mapM {A B} (f : A -> JS B) (xs : list A) :
  (forall x, framed (f x)) -> framed (mapM f xs).
Proof.
  intro Hf. induction xs as [| x rest IH]; simpl.
  - apply framed_ret.
  - apply framed_bind; [apply Hf |]. intro y.
    apply framed_bind; [exact IH |]. intro ys. apply framed_ret.
Qed.

Lemma framed_forEach {A T} (f : T -> A -> JS T) (xs : list A) :
  (forall s x, framed (f s x)) -> forall s, framed (forEach f xs s).
Proof.
  intro Hf. induction xs as [| x rest IH]; intro s; simpl.
  - apply framed_ret.
  - apply framed_bind; [apply Hf | intro s1; apply IH].
Qed.

(** ** The forEach pass *)

(** [typeof v === 'number'] holds of the numbers and of nothing else: the
    callback's test is a case distinction on the value. *)
Lemma typeof_number (v : value) :
  typeof v = "number" <-> exists n, v = VNum n.
Proof.
  split.
  - destruct v; simpl; try discriminate. intros _. now eexists.
  - intros [n ->]. reflexivity.
Qed.

(** The guard of the callback is the validity test of the specification: a
    valid record adds its two endpoints, any other record is warned about and
    leaves the set alone.  The callback never throws. *)
Lemma collect_endpoints_spec (nodeIds : NumSet) (rel : value) (c : Console) :
  collect_endpoints nodeIds rel c =
  match numeric_endpoints rel with
  | Some (s, t) => (c, Normal (Set_add (Set_add nodeIds s) t))
  | None => (c ++ [ConsoleWarn invalid_relation_msg (Some rel)], Normal nodeIds)
  end.
Proof.
  unfold collect_endpoints, numeric_endpoints.
  destruct rel as [ | | b | n | s | l | props]; simpl; try reflexivity.
  - destruct b; reflexivity.
  - destruct (n =? 0); reflexivity.
  - destruct (String.eqb s ""); reflexivity.
  - js_unfold.
    destruct (own_property props "Source") as [[ | | b | n | s | l | p] |];
      simpl; try reflexivity.
    destruct (own_property props "Target") as [[ | | b' | n' | s' | l' | p'] |];
      simpl; reflexivity.
Qed.

Lemma fold_Set_add_first_encounter (l : list Z) (s : NumSet) :
  fold_left Set_add l s = s ++ first_encounter s l.
Proof.
  revert s. induction l as [| n rest IH]; intro s; simpl.
  - now rewrite app_nil_r.
  - rewrite IH. unfold Set_add. destruct (Set_has s n).
    + reflexivity.
    + now rewrite <- app_assoc.
Qed.

Lemma forEach_collect_endpoints (records : list value) (s : NumSet) (c : Console) :
  forEach collect_endpoints records s c =
  (c ++ warnings_for records,
   Normal (fold_left Set_add (endpoint_stream records) s)).
Proof.
  revert s c. induction records as [| rel rest IH]; intros s c; simpl.
  - unfold ret. now rewrite app_nil_r.
  - unfold bind. rewrite collect_endpoints_spec.
    unfold has_numeric_endpoints.
    destruct (numeric_endpoints rel) as [[a b] |]; simpl.
    + apply IH.
    + rewrite IH. now rewrite <- app_assoc.
Qed.

(** ** Printing numbers *)

Lemma to_int_not_nil (n : Z) : Z.to_int n <> Decimal.Pos Decimal.Nil /\
                               Z.to_int n <> Decimal.Neg Decimal.Nil.
Proof.
  destruct n as [| p | p]; simpl; split; try discriminate;
    intro H; injection H as H; now apply DecimalPos.Unsigned.to_uint_nonnil in H.
Qed.

(** Distinct numbers print differently. *)
Lemma Number_toString_inj (n m : Z) :
  Number_toString n = Number_toString m -> n = m.
Proof.
  unfold Number_toString. intro H.
  apply DecimalZ.to_int_inj.
  destruct (to_int_not_nil n) as [Hn1 Hn2], (to_int_not_nil m) as [Hm1 Hm2].
  pose proof (NilZero.isi _ Hn1 Hn2) as En.
  pose proof (NilZero.isi _ Hm1 Hm2) as Em.
  rewrite H in En. congruence.
Qed.

(** ** The set of node ids *)

Lemma Set_has_In (s : NumSet) (n : Z) : Set_has s n = true <-> In n s.
Proof.
  unfold Set_has. rewrite existsb_exists. split.
  - intros [x [Hx E]]. apply Z.eqb_eq in E. now subst.
  - intro H. exists n. split; [assumption | apply Z.eqb_refl].
Qed.

Lemma first_encounter_In (l seen : list Z) (n : Z) :
  In n (first_encounter seen l) -> In n l /\ ~ In n seen.
Proof.
  revert seen. induction l as [| x rest IH]; intros seen H; simpl in *.
  - contradiction.
  - destruct (Set_has seen x) eqn:E.
    + apply IH in H. tauto.
    + destruct H as [-> | H].
      * split; [now left |]. intro Hin. apply Set_has_In in Hin. congruence.
      * apply IH in H. destruct H as [H1 H2]. split; [now right |].
        intro Hin. apply H2. apply in_or_app. now left.
Qed.

Lemma first_encounter_NoDup (l seen : list Z) : NoDup (first_encounter seen l).
Proof.
  revert seen. induction l as [| x rest IH]; intro seen; simpl.
  - constructor.
  - destruct (Set_has seen x).
    + apply IH.
    + constructor; [| apply IH].
      intro H. apply first_encounter_In in H. destruct H as [_ H].
      apply H. apply in_or_app. right. now left.
Qed.

(** Every number of the stream is in the result: nothing is lost. *)
Lemma first_encounter_complete (l seen : list Z) (n : Z) :
  In n l -> In n seen \/ In n (first_encounter seen l).
Proof.
  revert seen. induction l as [| x rest IH]; intros seen H; simpl in *.
  - contradiction.
  - destruct (Set_has seen x) eqn:E.
    + destruct H as [-> | H]; [left; now apply Set_has_In | now apply IH].
    + destruct H as [-> | H]; [right; now left |].
      destruct (IH (seen ++ [x]) H) as [Hin | Hin].
      * apply in_app_or in Hin. destruct Hin as [Hin | [-> | []]]; [now left |].
        right. now left.
      * right. now right.
Qed.

(** Where a number stands in the result: before it come exactly the first
    encounters of the part of the stream that precedes its own first
    occurrence. *)
Lemma first_encounter_order (l seen pre post : list Z) (a : Z) :
  first_encounter seen l = pre ++ a :: post ->
  exists l1 l2,
    l = l1 ++ a :: l2 /\ ~ In a l1 /\ ~ In a seen /\
    first_encounter seen l1 = pre.
Proof.
  revert seen pre. induction l as [| n rest IH]; intros seen pre H; simpl in H.
  - now destruct pre.
  - destruct (Set_has seen n) eqn:E.
    + destruct (IH seen pre H) as [l1 [l2 [-> [H1 [H2 H3]]]]].
      exists (n :: l1), l2. simpl. rewrite E.
      repeat split; try assumption.
      intros [-> | Hin]; [| contradiction].
      apply H2. now apply Set_has_In.
    + destruct pre as [| m pre']; simpl in H; inversion H; subst.
      * exists [], rest. simpl. repeat split; auto.
        intro Hin. apply Set_has_In in Hin. congruence.
      * destruct (IH (seen ++ [m]) pre' H2) as [l1 [l2 [-> [H1 [H3 H4]]]]].
        exists (m :: l1), l2. simpl. rewrite E.
        assert (Ha : a <> m).
        { intros ->. apply H3. apply in_or_app. right. now left. }
        repeat split.
        -- intros [-> | Hin]; [now apply Ha | contradiction].
        -- intro Hin. apply H3. apply in_or_app. now left.
        -- now rewrite H4.
Qed.

Lemma endpoint_stream_In (records : list value) (n : Z) :
  In n (endpoint_stream records) ->
  exists rel s t, In rel records /\ numeric_endpoints rel = Some (s, t) /\
                  (n = s \/ n = t).
Proof.
  unfold endpoint_stream. rewrite in_flat_map.
  intros [rel [Hrel Hn]].
  destruct (numeric_endpoints rel) as [[s t] |] eqn:E; simpl in Hn.
  - exists rel, s, t. repeat split; try assumption.
    destruct Hn as [<- | [<- | []]]; auto.
  - contradiction.
Qed.

(** ** The map pass *)

(** Building a link logs nothing. *)
Lemma link_of_relation_silent (rel : value) (c : Console) :
  link_of_relation rel c = (c, snd (link_of_relation rel [])).
Proof.
  unfold link_of_relation. js_unfold.
  destruct (getProp rel "Source") as [src | e]; [| reflexivity].
  destruct (toString src) as [s | e]; [| reflexivity].
  destruct (getProp rel "Target") as [tgt | e]; [| reflexivity].
  destruct (toString tgt) as [t | e]; [| reflexivity].
  destruct (getProp rel "RelationshipType") as [ty | e]; reflexivity.
Qed.

Lemma mapM_link_silent (records : list value) (c : Console) :
  mapM link_of_relation records c =
  (c, snd (mapM link_of_relation records [])).
Proof.
  revert c. induction records as [| rel rest IH]; intro c; simpl.
  - reflexivity.
  - unfold bind. rewrite (link_of_relation_silent rel c).
    rewrite (link_of_relation_silent rel []).
    destruct (snd (link_of_relation rel [])) as [l | e]; [| reflexivity].
    rewrite (IH c), (IH []).
    destruct (snd (mapM link_of_relation rest [])); reflexivity.
Qed.

(** [map] keeps the length: when no callback throws there is one link for
    every record of the raw array, valid or not. *)
Lemma mapM_length {A B} (f : A -> JS B) (xs : list A) (c c' : Console)
      (ys : list B) :
  mapM f xs c = (c', Normal ys) -> List.length ys = List.length xs.
Proof.
  revert c c' ys. induction xs as [| x rest IH]; intros c c' ys H; simpl in *.
  - unfold ret in H. now inversion H.
  - unfold bind in H.
    destruct (f x c) as [c1 [y | e]]; [| discriminate].
    destruct (mapM f rest c1) as [c2 [ys' | e]] eqn:E; [| discriminate].
    unfold ret in H. inversion H; subst. simpl. f_equal. eapply IH. eassumption.
Qed.

(** ** The whole function *)

(** The outcome of the [try] block on an array: the warnings of the forEach
    pass, then either the graph or the exception of the map pass. *)
Lemma transform_try_array (records : list value) (c : Console) :
  transform_try (VArr records) c =
  (c ++ warnings_for records,
   match snd (mapM link_of_relation records []) with
   | Normal ls =>
       Normal {| nodes := map node_of_id
                              (first_encounter [] (endpoint_stream records));
                 links := ls |}
   | Throw e => Throw e
   end).
Proof.
  unfold transform_try, bind.
  rewrite forEach_collect_endpoints, fold_Set_add_first_encounter.
  rewrite mapM_link_silent. simpl.
  destruct (snd (mapM link_of_relation records [])); reflexivity.
Qed.

Lemma transformNeo4jData_array (records : list value) (c : Console) :
  transformNeo4jData (VArr records) c =
  match snd (mapM link_of_relation records []) with
  | Normal ls =>
      (c ++ warnings_for records,
       Normal {| nodes := map node_of_id
                              (first_encounter [] (endpoint_stream records));
                 links := ls |})
  | Throw e =>
      (c ++ warnings_for records ++ [ConsoleError transform_failed_msg e],
       Normal empty_graph)
  end.
Proof.
  unfold transformNeo4jData, try_catch. rewrite transform_try_array.
  destruct (snd (mapM link_of_relation records [])) as [ls | e].
  - reflexivity.
  - unfold transform_catch. js_unfold. now rewrite <- app_assoc.
Qed.

Lemma transformNeo4jData_not_array (rawData : value) (c : Console) :
  (forall records, rawData <> VArr records) ->
  transformNeo4jData rawData c =
  (c ++ [ConsoleError transform_failed_msg (JsError not_an_array_msg)],
   Normal empty_graph).
Proof.
  intro H. destruct rawData; try reflexivity. now destruct (H elems).
Qed.

Lemma framed_transformNeo4jData (rawData : value) :
  framed (transformNeo4jData rawData).
Proof.
  intro c. destruct rawData;
    try (rewrite !transformNeo4jData_not_array by discriminate; reflexivity).
  rewrite !transformNeo4jData_array.
  destruct (snd (mapM link_of_relation elems [])); reflexivity.
Qed.

(** When the [try] block completes, the graph has one link for every raw
    record, whether the record passed the guard or not. *)
Lemma link_count_is_record_count (records : list value) (c c' : Console)
      (g : Graph) :
  transform_try (VArr records) c = (c', Normal g) ->
  List.length (links g) = List.length records.
Proof.
  rewrite transform_try_array. intro H.
  destruct (snd (mapM link_of_relation records [])) as [ls | e] eqn:E;
    [| discriminate].
  inversion H; subst; simpl.
  apply (mapM_length link_of_relation records [] []).
  rewrite mapM_link_silent, E. reflexivity.
Qed.

(** A record whose link cannot be built makes the map pass throw. *)
Lemma mapM_link_throws (records : list value) (rel : value) (e : exn) :
  In rel records -> snd (link_of_relation rel []) = Throw e ->
  exists e', snd (mapM link_of_relation records []) = Throw e'.
Proof.
  induction records as [| r rest IH]; intros Hin Hthrow; simpl in *.
  - contradiction.
  - unfold bind. rewrite (link_of_relation_silent r []).
    destruct (snd (link_of_relation r [])) as [l | e1] eqn:E.
    + destruct Hin as [-> | Hin]; [congruence |].
      destruct (IH Hin Hthrow) as [e' He'].
      rewrite mapM_link_silent, He'. now exists e'.
    + now exists e1.
Qed.

(** A record that passes the guard always yields its link. *)
Lemma valid_record_links (rel : value) :
  has_numeric_endpoints rel = true ->
  exists l, snd (link_of_relation rel []) = Normal l.
Proof.
  unfold has_numeric_endpoints, numeric_endpoints, link_of_relation.
  destruct rel as [ | | b | n | s | l | props]; try discriminate.
  js_unfold. simpl.
  destruct (own_property props "Source") as [[ | | b | n | s | l | q] |];
    try discriminate.
  destruct (own_property props "Target") as [[ | | b' | n' | s' | l' | q'] |];
    try discriminate.
  intros _. simpl.
  destruct (own_property props "RelationshipType"); simpl; now eexists.
Qed.

(** On an array whose records all pass the guard the count of the
    specification holds: as many links as valid records. *)
Lemma all_valid_records_linked (records : list value) (c : Console) :
  forallb has_numeric_endpoints records = true ->
  exists g, snd (transformNeo4jData (VArr records) c) = Normal g /\
            List.length (links g) = valid_record_count records.
Proof.
  intro Hall.
  assert (Hm : exists ls, snd (mapM link_of_relation records []) = Normal ls).
  { induction records as [| rel rest IH]; simpl in *.
    - now eexists.
    - apply andb_prop in Hall. destruct Hall as [Hrel Hrest].
      destruct (valid_record_links rel Hrel) as [l Hl].
      destruct (IH Hrest) as [ls Hls].
      unfold bind. rewrite (link_of_relation_silent rel []), Hl.
      rewrite mapM_link_silent, Hls. now eexists. }
  destruct Hm as [ls Hls].
  rewrite transformNeo4jData_array, Hls. eexists. split; [reflexivity |].
  simpl. unfold valid_record_count.
  assert (Hf : filter has_numeric_endpoints records = records).
  { clear Hls. induction records as [| rel rest IH]; simpl in *; [reflexivity |].
    apply andb_prop in Hall. destruct Hall as [Hrel Hrest].
    rewrite Hrel. f_equal. now apply IH. }
  rewrite Hf.
  apply (mapM_length link_of_relation records [] []).
  rewrite mapM_link_silent, Hls. reflexivity.
Qed.

(** C1 (the code at the scenario input): the record with a string [Source]
    is warned about and adds no node, but the map pass still turns it into a
    link: the output has 2 nodes and 2 links, the second link leaving from
    ["x"], while only 1 record has numeric endpoints. *)
Theorem C1_malformed_record_still_linked :
  transformNeo4jData scenario_string_source [] =
  ([ConsoleWarn invalid_relation_msg (Some (relation (VStr "x") (VNum 2)))],
   Normal {| nodes := [mkNode "1" "Node 1" "Entity";
                       mkNode "2" "Node 2" "Entity"];
             links := [mkLink "1" "2" default_link_type;
                       mkLink "x" "2" default_link_type] |}) /\
  valid_record_count [relation (VNum 1) (VNum 2); relation (VStr "x") (VNum 2)]
  = 1%nat.
Proof. split; reflexivity. Qed.

(** C3 (the code at a failing input): a [null] record is warned about, and
    then the map pass reads [null.Source], the TypeError reaches the catch
    block and the whole graph is emptied, the valid first record included. *)
Theorem C3_null_record_empties_graph :
  transformNeo4jData scenario_null_record [] =
  ([ConsoleWarn invalid_relation_msg (Some VNull);
    ConsoleError transform_failed_msg JsTypeError],
   Normal empty_graph).
Proof. reflexivity. Qed.

(** What holds of C3 on every array: each record failing the guard gets its
    warning, in order, whatever happens afterwards. *)
Lemma warnings_always_logged (records : list value) (c : Console) :
  exists rest, fst (transformNeo4jData (VArr records) c) =
               c ++ warnings_for records ++ rest.
Proof.
  rewrite transformNeo4jData_array.
  destruct (snd (mapM link_of_relation records [])) as [ls | e]; simpl.
  - exists []. now rewrite app_nil_r.
  - eexists. reflexivity.
Qed.

(** A record without a [Source] or a [Target], [null] or [undefined]
    included, empties the graph. *)
Lemma throwing_record_empties_graph (records : list value) (rel : value)
      (e : exn) (c : Console) :
  In rel records -> snd (link_of_relation rel []) = Throw e ->
  snd (transformNeo4jData (VArr records) c) = Normal empty_graph.
Proof.
  intros Hin Hthrow. rewrite transformNeo4jData_array.
  destruct (mapM_link_throws records rel e Hin Hthrow) as [e' ->].
  reflexivity.
Qed.

(** C7 (as stated, refuted): on [null], which is not an array, the
    normalizer logs no warning: its only diagnostic is the catch block's
    [console.error]. *)
Lemma C7_non_array_logs_no_warning :
  fst (transformNeo4jData VNull [])
  = [ConsoleError transform_failed_msg (JsError not_an_array_msg)] /\
  existsb is_warning (fst (transformNeo4jData VNull [])) = false.
Proof. split; reflexivity. Qed.

(** C7 (amended): on an input that is not an array the normalizer returns
    the empty graph, logs exactly one diagnostic, an error-level one (the
    catch block's [console.error], carrying the "must be an array" error),
    logs no warning, and does not throw. *)
Theorem C7_non_array_yields_empty_graph (rawData : value) (c : Console) :
  (forall records, rawData <> VArr records) ->
  transformNeo4jData rawData c =
  (c ++ [ConsoleError transform_failed_msg (JsError not_an_array_msg)],
   Normal empty_graph).
Proof. apply transformNeo4jData_not_array. Qed.

Lemma C7_non_array_witness :
  transformNeo4jData (VObj [("nodes", VArr [])]) [] =
  ([ConsoleError transform_failed_msg (JsError not_an_array_msg)],
   Normal empty_graph).
Proof.
  apply (C7_non_array_yields_empty_graph (VObj [("nodes", VArr [])]) []).
  intros records H. discriminate H.
Defined.

(** What holds of the node ids whenever the try block completes: they are
    the string forms of the valid endpoints in first-encounter order, each
    once. *)
Lemma node_ids_when_try_completes (records : list value) (c c' : Console)
      (g : Graph) :
  transform_try (VArr records) c = (c', Normal g) ->
  map id (nodes g)
  = map Number_toString (first_encounter [] (endpoint_stream records)) /\
  NoDup (map id (nodes g)).
Proof.
  rewrite transform_try_array.
  destruct (snd (mapM link_of_relation records [])) as [ls | e];
    [| discriminate].
  intro H. inversion H; subst; clear H. simpl. rewrite map_map. simpl.
  split; [reflexivity |].
  apply Injective_map_NoDup.
  - intros a b. apply Number_toString_inj.
  - apply first_encounter_NoDup.
Qed.

(** C8 (the code at a failing input): the first record is valid, so the
    endpoints 1 and 2 are due one node each, in that order; the second
    record has no [Target], the map pass throws on it, and the output has no
    node at all. *)
Theorem C8_valid_endpoints_get_no_node :
  numeric_endpoints (relation (VNum 1) (VNum 2)) = Some (1, 2) /\
  map Number_toString
      (first_encounter []
         (endpoint_stream [relation (VNum 1) (VNum 2);
                           VObj [("Source", VNum 2)]]))
  = ["1"; "2"] /\
  transformNeo4jData scenario_missing_target [] =
  ([ConsoleWarn invalid_relation_msg (Some (VObj [("Source", VNum 2)]));
    ConsoleError transform_failed_msg JsTypeError],
   Normal empty_graph) /\
  map id (nodes (normalized scenario_missing_target)) = [].
Proof. repeat split. Qed.

(** Order of first encounter, not sorted order. *)
Example node_order_is_first_encounter :
  option_map (fun g => map id (nodes g))
    (match snd (transformNeo4jData
                  (VArr [relation (VNum 5) (VNum 3);
                         relation (VNum 3) (VNum 1);
                         relation (VNum 5) (VNum 1)]) []) with
     | Normal g => Some g
     | Throw _ => None
     end)
  = Some ["5"; "3"; "1"].
Proof. reflexivity. Qed.

(** C9: two calls on the same raw value, one after the other on the same
    console, return the same graph (same nodes, same links, same order) and
    log the same diagnostics; the graph does not depend on what the console
    held before. *)
Theorem C9_normalization_deterministic (rawData : value) (c : Console) :
  exists g log,
    transformNeo4jData rawData c = (c ++ log, Normal g) /\
    normalize_twice rawData c = (c ++ log ++ log, Normal (g, g)) /\
    forall c', snd (transformNeo4jData rawData c') = Normal g.
Proof.
  pose proof (framed_transformNeo4jData rawData) as F.
  assert (T : exists g, snd (transformNeo4jData rawData []) = Normal g).
  { destruct rawData;
      try (rewrite transformNeo4jData_not_array by discriminate;
           now eexists).
    rewrite transformNeo4jData_array.
    destruct (snd (mapM link_of_relation elems [])); now eexists. }
  destruct T as [g Hg].
  exists g, (fst (transformNeo4jData rawData [])).
  split; [| split].
  - rewrite (F c), Hg. reflexivity.
  - unfold normalize_twice, bind, ret.
    rewrite (F c), Hg. rewrite (F (c ++ _)), Hg.
    now rewrite <- app_assoc.
  - intro c'. rewrite (F c'). exact Hg.
Qed.

(** C10: the normalizer never throws to its caller and always returns a
    graph (a [nodes] list and a [links] list): when the try block completes,
    its graph; when anything inside it throws, the catch block logs the
    exception and returns the empty graph. *)
Theorem C10_transform_total (rawData : value) (c : Console) :
  (exists c' g, transformNeo4jData rawData c = (c', Normal g)) /\
  match transform_try rawData c with
  | (c1, Normal g) => transformNeo4jData rawData c = (c1, Normal g)
  | (c1, Throw e) =>
      transformNeo4jData rawData c =
      (c1 ++ [ConsoleError transform_failed_msg e], Normal empty_graph)
  end.
Proof.
  unfold transformNeo4jData, try_catch.
  destruct (transform_try rawData c) as [c1 [g | e]].
  - split; [now exists c1, g | reflexivity].
  - unfold transform_catch. js_unfold. split; [| reflexivity].
    now eexists; eexists.
Qed.

(** ** Updating one element of an array *)

Lemma nth_error_update_nth_same {A} (f : A -> A) (l : list A) (j : nat) (a : A) :
  nth_error l j = Some a -> nth_error (update_nth j f l) j = Some (f a).
Proof.
  revert j. induction l as [| b rest IH]; intros [| j] H; simpl in *;
    try discriminate.
  - now inversion H.
  - now apply IH.
Qed.

Lemma nth_error_update_nth_other {A} (f : A -> A) (l : list A) (j k : nat) :
  j <> k -> nth_error (update_nth j f l) k = nth_error l k.
Proof.
  revert j k. induction l as [| b rest IH]; intros [| j] [| k] H; simpl;
    try reflexivity.
  - contradiction.
  - apply IH. intro E. apply H. now f_equal.
Qed.

Lemma nth_error_update_nth_none {A} (f : A -> A) (l : list A) (j : nat) :
  nth_error l j = None -> nth_error (update_nth j f l) j = None.
Proof.
  revert j. induction l as [| b rest IH]; intros [| j] H; simpl in *;
    try discriminate; auto.
Qed.

Lemma nth_error_tick_nodes (engine : Engine) (sim : Simulation)
      (ns : list SimNode) (k j : nat) (d : SimNode) :
  nth_error ns j = Some d ->
  nth_error (tick_nodes engine sim k ns) j =
  Some (tick_node engine sim (k + j) d).
Proof.
  revert k j. induction ns as [| a rest IH]; intros k [| j] H; simpl in *;
    try discriminate.
  - inversion H. now rewrite Nat.add_0_r.
  - rewrite (IH (S k) j H). now rewrite Nat.add_succ_r.
Qed.

(** A tick puts a pinned node on its pin, whatever the engine computes. *)
Lemma tick_node_pinned (engine : Engine) (sim : Simulation) (k : nat)
      (d : SimNode) (px py : Q) :
  fx d = Some px -> fy d = Some py ->
  position (tick_node engine sim k d) = (px, py).
Proof.
  intros Hx Hy. unfold tick_node, position.
  destruct (motion engine (sim_nodes sim) (sim_links sim) k) as [[nx ny] [nvx nvy]].
  simpl. now rewrite Hx, Hy.
Qed.

(** ** The drag handlers *)

(** A handler touches the node it is called for and no other. *)
Lemma drag_leaves_other_nodes (e : DragEvent) (j k : nat) (sim : Simulation) :
  j <> k ->
  nth_error (sim_nodes (dragstarted e j sim)) k = nth_error (sim_nodes sim) k /\
  nth_error (sim_nodes (dragged e j sim)) k = nth_error (sim_nodes sim) k /\
  nth_error (sim_nodes (dragended e j sim)) k = nth_error (sim_nodes sim) k.
Proof.
  intro H. unfold dragstarted, dragged, dragended. simpl.
  rewrite !nth_error_update_nth_other by assumption.
  destruct (Nat.eqb (active e) 0); auto.
Qed.

(** Releasing a node does not move it. *)
Lemma node_position_dragended (e : DragEvent) (j : nat) (sim : Simulation) :
  node_position (dragended e j sim) j = node_position sim j.
Proof.
  unfold node_position, dragended.
  assert (G : forall ns,
             match nth_error (update_nth j (set_pin None None) ns) j with
             | Some n => position n
             | None => (0%Q, 0%Q)
             end =
             match nth_error ns j with
             | Some n => position n
             | None => (0%Q, 0%Q)
             end).
  { intro ns. destruct (nth_error ns j) as [n |] eqn:E.
    - now rewrite (nth_error_update_nth_same (set_pin None None) _ _ _ E).
    - now rewrite (nth_error_update_nth_none (set_pin None None) _ _ E). }
  destruct (Nat.eqb (active e) 0); simpl; apply G.
Qed.

(** C5 (as stated, refuted): with another gesture still active the end
    handler leaves the target alpha at 0.3; and a node at (10, 20) that is
    pressed, dragged to (500, 500) and released before any tick is still at
    (10, 20), since no handler writes [x] or [y]. *)
Lemma C5_release_keeps_alpha_and_position :
  alphaTarget (dragended (pointer_at 1 500 500) 0 reheated_simulation)
  = reheat_alpha /\
  ~ (reheat_alpha == 0)%Q /\
  node_position
    (dragended (pointer_at 0 500 500) 0
       (dragged (pointer_at 0 500 500) 0
          (dragstarted (pointer_at 0 10 20) 0 reheated_simulation))) 0
  = (10%Q, 20%Q) /\
  ~ (10 == 500)%Q.
Proof.
  repeat split; try reflexivity; intro H; discriminate H.
Qed.

(** C5 (amended): for the node [d] at index [j].  Drag-start pins it at its
    current position and, when no other gesture is active, sets the target
    alpha to 0.3 and restarts the timer.  Drag-move pins it at the pointer.
    Drag-end clears the pin and, when no other gesture is active, sets the
    target alpha to 0.  No handler writes the position: a release leaves it
    where it was, and a node dragged to a point and released is at that
    point once a tick has run between the last move and the release. *)
Theorem C5_drag_handlers (engine : Engine) (sim : Simulation) (j : nat)
        (d : SimNode) (e : DragEvent) :
  nth_error (sim_nodes sim) j = Some d ->
  (nth_error (sim_nodes (dragstarted e j sim)) j
     = Some (set_pin (Some (x d)) (Some (y d)) d) /\
   alphaTarget (dragstarted e j sim)
     = (if Nat.eqb (active e) 0 then reheat_alpha else alphaTarget sim) /\
   running (dragstarted e j sim)
     = (if Nat.eqb (active e) 0 then true else running sim)) /\
  (nth_error (sim_nodes (dragged e j sim)) j
     = Some (set_pin (Some (event_x e)) (Some (event_y e)) d) /\
   alphaTarget (dragged e j sim) = alphaTarget sim) /\
  (nth_error (sim_nodes (dragended e j sim)) j = Some (set_pin None None d) /\
   alphaTarget (dragended e j sim)
     = (if Nat.eqb (active e) 0 then 0%Q else alphaTarget sim)) /\
  node_position (dragended e j sim) j = position d /\
  (forall release,
     node_position (dragended release j (tick engine (dragged e j sim))) j
     = (event_x e, event_y e)).
Proof.
  intro H.
  assert (Hd : nth_error (sim_nodes (dragged e j sim)) j
               = Some (set_pin (Some (event_x e)) (Some (event_y e)) d)).
  { unfold dragged. simpl. now apply nth_error_update_nth_same. }
  repeat split.
  - unfold dragstarted.
    destruct (Nat.eqb (active e) 0); simpl;
      now apply (nth_error_update_nth_same
                   (fun n => set_pin (Some (x n)) (Some (y n)) n)).
  - unfold dragstarted. destruct (Nat.eqb (active e) 0); reflexivity.
  - unfold dragstarted. destruct (Nat.eqb (active e) 0); reflexivity.
  - exact Hd.
  - unfold dragended.
    destruct (Nat.eqb (active e) 0); simpl;
      now apply nth_error_update_nth_same.
  - unfold dragended. destruct (Nat.eqb (active e) 0); reflexivity.
  - rewrite node_position_dragended. unfold node_position. now rewrite H.
  - intro release.
    pose proof (nth_error_tick_nodes engine (dragged e j sim) _ 0 j _ Hd) as Ht.
    rewrite node_position_dragended.
    unfold node_position, tick. cbn [sim_nodes set_nodes]. rewrite Ht.
    now apply tick_node_pinned.
Qed.

Lemma C5_drag_handlers_witness :
  node_position
    (dragended (pointer_at 0 500 500) 0
       (tick still_engine
          (dragged (pointer_at 0 500 500) 0 reheated_simulation))) 0
  = (500%Q, 500%Q).
Proof.
  assert (H : nth_error (sim_nodes reheated_simulation) 0 = Some resting_node)
    by reflexivity.
  exact (proj2 (proj2 (proj2 (proj2
           (C5_drag_handlers still_engine reheated_simulation 0 resting_node
              (pointer_at 0 500 500) H))))
           (pointer_at 0 500 500)).
Defined.

(** ** Link resolution at setup *)

Lemma index_of_id_None (i : string) (ns : list Node) :
  index_of_id i ns = None <-> ~ In i (map id ns).
Proof.
  induction ns as [| n rest IH]; simpl.
  - tauto.
  - destruct (String.eqb_spec (id n) i) as [E | E].
    + split; [discriminate | intro H; exfalso; apply H; now left].
    + destruct (index_of_id i rest); simpl.
      * split; [discriminate |]. intro H.
        assert (H' : ~ In i (map id rest)) by tauto.
        apply IH in H'. discriminate H'.
      * split; [| reflexivity]. intros _ [H | H]; [contradiction |].
        now apply IH.
Qed.

Lemma resolve_link_unresolvable (ns : list Node) (l : Link) :
  ~ In (source l) (map id ns) \/ ~ In (target l) (map id ns) ->
  exists msg, resolve_link ns l = Throw (JsError msg).
Proof.
  intro H. unfold resolve_link.
  destruct (index_of_id (source l) ns) eqn:Es; [| now eexists].
  destruct (index_of_id (target l) ns) eqn:Et; [| now eexists].
  destruct H as [H | H]; apply index_of_id_None in H; congruence.
Qed.

(** Resolution either succeeds on every link or throws an [Error]. *)
Lemma resolve_links_throws_error (ns : list Node) (ls : list Link) (e : exn) :
  resolve_links ns ls = Throw e -> exists msg, e = JsError msg.
Proof.
  induction ls as [| l rest IH]; simpl; [discriminate |].
  unfold resolve_link.
  destruct (index_of_id (source l) ns); simpl;
    [| intro H; inversion H; now eexists].
  destruct (index_of_id (target l) ns); simpl;
    [| intro H; inversion H; now eexists].
  destruct (resolve_links ns rest); simpl; [discriminate |].
  intro H. inversion H; subst. now apply IH.
Qed.

Lemma resolve_links_unresolvable (ns : list Node) (ls : list Link) (l : Link) :
  In l ls ->
  ~ In (source l) (map id ns) \/ ~ In (target l) (map id ns) ->
  exists msg, resolve_links ns ls = Throw (JsError msg).
Proof.
  intros Hin Hl. induction ls as [| a rest IH]; simpl in *; [contradiction |].
  destruct (resolve_link ns a) as [r | e] eqn:Ea; simpl.
  - destruct Hin as [-> | Hin].
    + destruct (resolve_link_unresolvable ns l Hl) as [msg Hm]. congruence.
    + destruct (IH Hin) as [msg ->]. now exists msg.
  - destruct (resolve_links_throws_error ns [a] e) as [msg ->].
    + simpl. now rewrite Ea.
    + now exists msg.
Qed.

(** With an unresolvable link the setup throws before it has touched the
    view: no simulation, no layer, nothing logged yet. *)
Lemma setup_graph_unresolvable (engine : Engine) (g : Graph) (v : View) :
  has_unresolvable_link g ->
  exists msg, setup_graph engine g v = (v, Throw (JsError msg)).
Proof.
  intros [l [Hin Hl]].
  destruct (resolve_links_unresolvable (nodes g) (links g) l Hin Hl) as [msg H].
  exists msg. unfold setup_graph, bind, lift, forceSimulation.
  now rewrite H.
Qed.

(** C4 (as stated, refuted): a graph with no node and one link between
    undeclared ids is dropped by the empty-nodes guard of the TypeScript
    component: nothing is drawn, no simulation starts, and nothing is
    reported either. *)
Lemma C4_empty_node_set_not_reported :
  has_unresolvable_link graph_links_only /\
  loadAndRender_resume still_engine (Responded 200 (Some graph_links_only))
                       mounted_view
  = (mounted_view, Normal tt).
Proof.
  split; [| reflexivity].
  exists (mkLink "a" "b" (VStr "KNOWS")). split; [now left |].
  left. intros [].
Qed.

(** C4 (amended): for a graph with at least one node and a link whose
    source or target is the id of no node, the load is aborted at setup and
    reported: the view keeps its svg and its simulations as they were (no
    simulation starts, nothing is drawn) and the console gains exactly one
    [console.error] carrying the setup error.  The same holds of the setup
    itself, which both components share. *)
Theorem C4_unresolvable_link_aborts_load (engine : Engine) (g : Graph)
        (status : Z) (v : View) :
  nodes g <> [] ->
  has_unresolvable_link g ->
  exists msg,
    setup_graph engine g v = (v, Throw (JsError msg)) /\
    loadAndRender_resume engine (Responded status (Some g)) v =
    (set_console (console v ++ [ConsoleError render_error_msg (JsError msg)]) v,
     Normal tt).
Proof.
  intros Hn Hl.
  destruct (setup_graph_unresolvable engine g v Hl) as [msg H].
  exists msg. split; [exact H |].
  unfold loadAndRender_resume, try_catch.
  destruct (nodes g) as [| n rest] eqn:En; [contradiction |].
  simpl. rewrite H. reflexivity.
Qed.

Lemma C4_unresolvable_link_witness :
  exists msg,
    setup_graph still_engine
      {| nodes := [mkNode "1" "Node 1" "Entity"];
         links := [mkLink "1" "9" (VStr "KNOWS")] |} mounted_view
    = (mounted_view, Throw (JsError msg)) /\
    loadAndRender_resume still_engine
      (Responded 200
         (Some {| nodes := [mkNode "1" "Node 1" "Entity"];
                  links := [mkLink "1" "9" (VStr "KNOWS")] |})) mounted_view
    = (set_console
         (console mounted_view ++
          [ConsoleError render_error_msg (JsError msg)]) mounted_view,
       Normal tt).
Proof.
  apply (C4_unresolvable_link_aborts_load still_engine
           {| nodes := [mkNode "1" "Node 1" "Entity"];
              links := [mkLink "1" "9" (VStr "KNOWS")] |} 200 mounted_view).
  - simpl. discriminate.
  - exists (mkLink "1" "9" (VStr "KNOWS")). split; [now left |].
    right. simpl. intros [H | []]. discriminate H.
Defined.

(** The normalizer's output for the malformed-record scenario carries the
    link from ["x"], which no node declares: the JavaScript component aborts
    that load in the same way. *)
Lemma renderGraph_aborts_on_normalizer_output (engine : Engine) (v : View) :
  exists msg c,
    renderGraph_resume engine (Responded 200 (Some scenario_string_source)) v
    = (set_console (c ++ [ConsoleError render_failed_msg (JsError msg)]) v,
       Normal tt).
Proof.
  unfold renderGraph_resume, try_catch, bind, on_console. simpl.
  eexists. eexists. reflexivity.
Qed.

(** ** Transport failures *)

(** Neither async function lets an exception escape: the catch block ends
    every path normally. *)
Lemma renderGraph_resume_completes (engine : Engine)
      (outcome : fetch_outcome value) (v : View) :
  snd (renderGraph_resume engine outcome v) = Normal tt.
Proof.
  unfold renderGraph_resume, try_catch.
  match goal with |- context [match ?b with _ => _ end] =>
    destruct b as [v1 [[] | e]] end; reflexivity.
Qed.

Lemma loadAndRender_resume_completes (engine : Engine)
      (outcome : fetch_outcome Graph) (v : View) :
  snd (loadAndRender_resume engine outcome v) = Normal tt.
Proof.
  unfold loadAndRender_resume, try_catch.
  match goal with |- context [match ?b with _ => _ end] =>
    destruct b as [v1 [[] | e]] end; reflexivity.
Qed.

(** The JavaScript component on a transport failure: one [console.error],
    the svg and the simulations as they were. *)
Lemma renderGraph_transport_failure (engine : Engine)
      (outcome : fetch_outcome value) (v : View) :
  transport_failure outcome = true ->
  renderGraph_resume engine outcome v =
  (set_console
     (console v ++ [ConsoleError render_failed_msg (transport_error outcome)])
     v,
   Normal tt).
Proof.
  intro H. unfold renderGraph_resume, try_catch.
  destruct outcome as [e | status json]; simpl in *.
  - reflexivity.
  - destruct (response_ok status); [discriminate | reflexivity].
Qed.

(** The TypeScript component on a rejected fetch does the same. *)
Lemma loadAndRender_rejected (engine : Engine) (e : exn) (v : View) :
  loadAndRender_resume engine (Rejected e) v =
  (set_console (console v ++ [ConsoleError render_error_msg e]) v, Normal tt).
Proof. reflexivity. Qed.

(** Nothing ever reaches the global handler, in either component. *)
Lemma js_step_unhandled (engine : Engine) (p : Page) (ev : event value) :
  unhandled (step value engine (renderGraph_resume engine) p ev) = unhandled p.
Proof.
  destruct ev as [| url | | request outcome | k | k | k j e | k j e | k j e];
    simpl; try reflexivity.
  - destruct (stage p); reflexivity.
  - destruct (stage p); try reflexivity.
    destruct (String.eqb url (dataUrl p)); [reflexivity |].
    unfold run_effect. simpl.
    destruct (svgRef_current (view p)); reflexivity.
  - destruct (stage p); reflexivity.
  - unfold settle. destruct (nth_error (requests p) request) as [r |];
      [| reflexivity].
    destruct (in_flight r); [| reflexivity].
    pose proof (renderGraph_resume_completes engine outcome
                  (view (set_requests
                           (update_nth request
                              (fun r0 => {| request_url := request_url r0;
                                            in_flight := false |})
                              (requests p)) p))) as H.
    destruct (renderGraph_resume engine outcome _) as [v [u | e]];
      [reflexivity | discriminate H].
Qed.

Lemma tsx_step_unhandled (engine : Engine) (p : Page) (ev : event Graph) :
  unhandled (step Graph engine (loadAndRender_resume engine) p ev)
  = unhandled p.
Proof.
  destruct ev as [| url | | request outcome | k | k | k j e | k j e | k j e];
    simpl; try reflexivity.
  - destruct (stage p); reflexivity.
  - destruct (stage p); try reflexivity.
    destruct (String.eqb url (dataUrl p)); [reflexivity |].
    unfold run_effect. simpl.
    destruct (svgRef_current (view p)); reflexivity.
  - destruct (stage p); reflexivity.
  - unfold settle. destruct (nth_error (requests p) request) as [r |];
      [| reflexivity].
    destruct (in_flight r); [| reflexivity].
    pose proof (loadAndRender_resume_completes engine outcome
                  (view (set_requests
                           (update_nth request
                              (fun r0 => {| request_url := request_url r0;
                                            in_flight := false |})
                              (requests p)) p))) as H.
    destruct (loadAndRender_resume engine outcome _) as [v [u | e]];
      [reflexivity | discriminate H].
Qed.

(** C6 (the code at a failing input): the TypeScript component never reads
    the status.  A response with status 500 whose body is a graph is set up
    and drawn like any other (one simulation, one layer with the two
    circles), and no diagnostic is logged. *)
Theorem C6_error_status_is_rendered :
  transport_failure (Responded 500 (Some graph_one_two)) = true /\
  console (fst (loadAndRender_resume still_engine
                  (Responded 500 (Some graph_one_two)) mounted_view)) = [] /\
  map running
      (simulations (fst (loadAndRender_resume still_engine
                           (Responded 500 (Some graph_one_two)) mounted_view)))
  = [true] /\
  map circle_data
      (layers (svg (fst (loadAndRender_resume still_engine
                           (Responded 500 (Some graph_one_two)) mounted_view))))
  = [nodes graph_one_two].
Proof. repeat split. Qed.

(** ** No teardown *)

Lemma timer_tick_delivers (engine : Engine) (k : nat) (v : View)
      (sim : Simulation) :
  nth_error (simulations v) k = Some sim ->
  running sim = true -> listening sim = true ->
  option_map ticks_delivered (nth_error (simulations (timer_tick engine k v)) k)
  = Some (S (ticks_delivered sim)).
Proof.
  intros Hk Hr Hl. unfold timer_tick. rewrite Hk, Hr.
  unfold tick at 1. cbn [listening set_nodes]. rewrite Hl.
  cbn [simulations set_svg set_simulations].
  rewrite (nth_error_update_nth_same _ _ _ _ Hk). reflexivity.
Qed.

(** C2 (as stated, refuted), on the JavaScript component.  The load for
    [/a.json] settles after the prop has changed to [/b.json] and the load
    for [/b.json] has started: its graph is drawn all the same (the svg had
    no layer before).  And a simulation's listener is called on a tick after
    the prop change and again on a tick after the unmount. *)
Lemma C2_stale_load_drawn_and_ticks_continue :
  (layers (svg (view (js_run still_engine (initial_page "/a.json")
                        [Mount; SetDataUrl "/b.json"]))) = [] /\
   dataUrl (js_run still_engine (initial_page "/a.json") stale_settle_trace)
   = "/b.json" /\
   requests (js_run still_engine (initial_page "/a.json") stale_settle_trace)
   = [{| request_url := "/a.json"; in_flight := false |};
      {| request_url := "/b.json"; in_flight := true |}] /\
   map circle_data
       (layers (svg (view (js_run still_engine (initial_page "/a.json")
                             stale_settle_trace))))
   = [[mkNode "1" "Node 1" "Entity"; mkNode "2" "Node 2" "Entity"]]) /\
  (stage (js_run still_engine (initial_page "/a.json")
            tick_after_teardown_trace) = Unmounted /\
   map ticks_delivered
       (simulations (view (js_run still_engine (initial_page "/a.json")
                             tick_after_teardown_trace)))
   = [2%nat]).
Proof. repeat split. Qed.

(** C2 (amended), for either component ([resume] is its async function).
    Nothing is torn down: a [dataUrl] change and an unmount leave every
    simulation and every layer as they are, so a simulation that is running
    with its listener subscribed has its next tick delivered after either;
    a [dataUrl] change only starts one more load.  And a load that settles
    is applied whatever the current [dataUrl] is: the view it produces is the
    one the async function computes from the response alone. *)
Theorem C2_no_teardown_no_staleness_guard (P : Type) (engine : Engine)
        (resume : fetch_outcome P -> Eff View unit) (p : Page) :
  (forall url,
     simulations (view (step P engine resume p (SetDataUrl url)))
     = simulations (view p) /\
     svg (view (step P engine resume p (SetDataUrl url))) = svg (view p)) /\
  (simulations (view (step P engine resume p Unmount)) = simulations (view p) /\
   svg (view (step P engine resume p Unmount)) = svg (view p)) /\
  (forall ev k sim,
     ev = Unmount \/ (exists url, ev = SetDataUrl url) ->
     nth_error (simulations (view p)) k = Some sim ->
     running sim = true -> listening sim = true ->
     option_map ticks_delivered
       (nth_error
          (simulations
             (view (step P engine resume (step P engine resume p ev)
                         (TimerTick k)))) k)
     = Some (S (ticks_delivered sim))) /\
  (forall url,
     stage p = Mounted -> String.eqb url (dataUrl p) = false ->
     svgRef_current (view p) = true ->
     requests (step P engine resume p (SetDataUrl url))
     = requests p ++ [{| request_url := url; in_flight := true |}]) /\
  (forall k r outcome url,
     nth_error (requests p) k = Some r -> in_flight r = true ->
     view (step P engine resume (set_dataUrl url p) (FetchSettled k outcome))
     = fst (resume outcome (view p))).
Proof.
  assert (Hset : forall url,
             simulations (view (step P engine resume p (SetDataUrl url)))
             = simulations (view p) /\
             svg (view (step P engine resume p (SetDataUrl url)))
             = svg (view p)).
  { intro url. simpl. destruct (stage p); try (split; reflexivity).
    destruct (String.eqb url (dataUrl p)); [split; reflexivity |].
    unfold run_effect. simpl.
    destruct (svgRef_current (view p)); split; reflexivity. }
  assert (Hun : simulations (view (step P engine resume p Unmount))
                = simulations (view p) /\
                svg (view (step P engine resume p Unmount)) = svg (view p)).
  { simpl. destruct (stage p); split; reflexivity. }
  split; [exact Hset | split; [exact Hun | split; [| split]]].
  - intros ev k sim Hev Hk Hr Hl.
    assert (Hs : simulations (view (step P engine resume p ev))
                 = simulations (view p)).
    { destruct Hev as [-> | [url ->]]; [apply Hun | apply Hset]. }
    cbn [step view set_view].
    apply timer_tick_delivers; [now rewrite Hs | assumption | assumption].
  - intros url Hst Hurl Href. cbn [step]. rewrite Hst, Hurl.
    unfold run_effect. cbn [view set_dataUrl]. rewrite Href. reflexivity.
  - intros k r outcome url Hk Hf. cbn [step]. unfold settle.
    cbn [requests set_dataUrl]. rewrite Hk, Hf.
    cbn [view set_requests set_dataUrl].
    destruct (resume outcome (view p)) as [v [u | e]]; reflexivity.
Qed.

Lemma C2_no_teardown_witness :
  option_map ticks_delivered
    (nth_error
       (simulations
          (view (step value still_engine (renderGraph_resume still_engine)
                   (step value still_engine (renderGraph_resume still_engine)
                      (js_run still_engine (initial_page "/a.json")
                         [Mount;
                          FetchSettled 0 (Responded 200 (Some raw_one_two))])
                      Unmount)
                   (TimerTick 0)))) 0)
  = Some 1%nat.
Proof.
  refine (proj1 (proj2 (proj2
            (C2_no_teardown_no_staleness_guard value still_engine
               (renderGraph_resume still_engine)
               (js_run still_engine (initial_page "/a.json")
                  [Mount; FetchSettled 0 (Responded 200 (Some raw_one_two))]))))
            Unmount 0%nat
            {| sim_nodes := place still_engine 0
                              [mkNode "1" "Node 1" "Entity";
                               mkNode "2" "Node 2" "Entity"];
               sim_links := [{| link_datum := mkLink "1" "2" (VStr "KNOWS");
                                source_node := 0; target_node := 1 |}];
               alphaTarget := 0; running := true; listening := true;
               ticks_delivered := 0 |} _ _ _ _).
  - now left.
  - reflexivity.
  - reflexivity.
  - reflexivity.
Defined.

(** * Further properties of the normalizer *)

Lemma endpoint_stream_has (records : list value) (rel : value) (s t : Z) :
  In rel records -> numeric_endpoints rel = Some (s, t) ->
  In s (endpoint_stream records) /\ In t (endpoint_stream records).
Proof.
  intros Hin E. unfold endpoint_stream.
  split; apply in_flat_map; exists rel; (split; [assumption |]);
    rewrite E; simpl; auto.
Qed.

(** The map pass links record after record. *)
Lemma mapM_link_pointwise (records : list value) (ls : list Link) :
  snd (mapM link_of_relation records []) = Normal ls ->
  Forall2 (fun rel l => snd (link_of_relation rel []) = Normal l) records ls.
Proof.
  revert ls. induction records as [| rel rest IH]; intros ls H; simpl in H.
  - unfold ret in H. simpl in H. inversion H. constructor.
  - unfold bind in H. rewrite (link_of_relation_silent rel []) in H.
    destruct (snd (link_of_relation rel [])) as [l | e] eqn:El;
      [| discriminate H].
    rewrite mapM_link_silent in H.
    destruct (snd (mapM link_of_relation rest [])) as [ls' | e] eqn:Er;
      [| discriminate H].
    unfold ret in H. simpl in H. inversion H; subst.
    constructor; [assumption | now apply IH].
Qed.

(** The link of a record that passed the guard joins the string forms of its
    two numbers. *)
Lemma valid_record_link_ends (rel : value) (s t : Z) (l : Link) :
  numeric_endpoints rel = Some (s, t) ->
  snd (link_of_relation rel []) = Normal l ->
  source l = Number_toString s /\ target l = Number_toString t.
Proof.
  unfold numeric_endpoints, link_of_relation.
  destruct rel as [ | | b | n | str | els | props]; try discriminate.
  js_unfold. simpl.
  destruct (own_property props "Source") as [[ | | b | n | str | els | q] |];
    try discriminate.
  destruct (own_property props "Target") as [[ | | b' | n' | str' | els' | q'] |];
    try discriminate.
  intro E. inversion E; subst. simpl.
  destruct (own_property props "RelationshipType"); simpl;
    intro H; inversion H; subst; simpl; auto.
Qed.

(** Whatever link is built, its type is truthy and it has no weight. *)
Lemma link_of_relation_type (rel : value) (l : Link) :
  snd (link_of_relation rel []) = Normal l ->
  truthy (link_type l) = true /\ weight l = None.
Proof.
  unfold link_of_relation. js_unfold.
  destruct (getProp rel "Source") as [src | e]; [| discriminate].
  destruct (toString src) as [s | e]; [| discriminate].
  destruct (getProp rel "Target") as [tgt | e]; [| discriminate].
  destruct (toString tgt) as [t | e]; [| discriminate].
  destruct (getProp rel "RelationshipType") as [ty | e]; [| discriminate].
  simpl. intro H. inversion H; subst; simpl. split; [| reflexivity].
  destruct (truthy ty) eqn:E; [exact E | reflexivity].
Qed.

(** [toString] throws nothing but a TypeError. *)
Lemma toString_throws_TypeError (v : value) (e : exn) :
  toString v = Throw e -> e = JsTypeError.
Proof.
  revert e. induction v as [ | | b | n | s | elems IH | props]
    using value_array_ind; intro e; simpl.
  - intro H. now inversion H.
  - intro H. now inversion H.
  - discriminate.
  - discriminate.
  - discriminate.
  - induction IH as [| x rest Hx Hrest IHl]; [discriminate |].
    assert (Hx' : forall e0,
               match x with
               | VUndefined | VNull => Normal ""
               | _ => toString x
               end = Throw e0 -> e0 = JsTypeError).
    { intros e0 H0. destruct x; try discriminate H0; now apply Hx. }
    destruct rest as [| y rest'].
    + apply Hx'.
    + destruct (match x with
                | VUndefined | VNull => Normal ""
                | _ => toString x
                end) as [sx | ex] eqn:Ex.
      * simpl. intro H.
        match type of H with
        | Completion_bind ?j _ = _ => destruct j as [r | er] eqn:Ej
        end; [discriminate H |].
        simpl in H. inversion H; subst. now apply IHl.
      * simpl. intro H. inversion H; subst. now apply Hx'.
  - destruct (own_property props "toString"); [| discriminate].
    intro H. now inversion H.
Qed.

Lemma getProp_throws_TypeError (v : value) (key : string) (e : exn) :
  getProp v key = Throw e -> e = JsTypeError.
Proof.
  destruct v; simpl; try discriminate; try (intro H; now inversion H).
  destruct (own_property props key); discriminate.
Qed.

Lemma link_of_relation_throws_TypeError (rel : value) (e : exn) :
  snd (link_of_relation rel []) = Throw e -> e = JsTypeError.
Proof.
  unfold link_of_relation. js_unfold.
  destruct (getProp rel "Source") as [src | e1] eqn:E1;
    [| simpl; intro H; inversion H; subst;
       now apply (getProp_throws_TypeError _ _ _ E1)].
  destruct (toString src) as [s | e2] eqn:E2;
    [| simpl; intro H; inversion H; subst;
       now apply (toString_throws_TypeError _ _ E2)].
  destruct (getProp rel "Target") as [tgt | e3] eqn:E3;
    [| simpl; intro H; inversion H; subst;
       now apply (getProp_throws_TypeError _ _ _ E3)].
  destruct (toString tgt) as [t | e4] eqn:E4;
    [| simpl; intro H; inversion H; subst;
       now apply (toString_throws_TypeError _ _ E4)].
  destruct (getProp rel "RelationshipType") as [ty | e5] eqn:E5;
    [discriminate |].
  simpl. intro H. inversion H; subst.
  now apply (getProp_throws_TypeError _ _ _ E5).
Qed.

Lemma mapM_link_throws_TypeError (records : list value) (e : exn) :
  snd (mapM link_of_relation records []) = Throw e -> e = JsTypeError.
Proof.
  induction records as [| rel rest IH]; simpl; [discriminate |].
  unfold bind. rewrite (link_of_relation_silent rel []).
  destruct (snd (link_of_relation rel [])) as [l | e1] eqn:El.
  - rewrite mapM_link_silent.
    destruct (snd (mapM link_of_relation rest [])) as [ls | e2];
      [discriminate |].
    simpl. intro H. inversion H; subst. now apply IH.
  - simpl. intro H. inversion H; subst.
    now apply (link_of_relation_throws_TypeError rel).
Qed.

(** A record with no usable [Source] or [Target] cannot be linked. *)
Lemma missing_endpoint_throws (rel : value) :
  endpoint_missing rel "Source" = true \/ endpoint_missing rel "Target" = true ->
  snd (link_of_relation rel []) = Throw JsTypeError.
Proof.
  intro H.
  destruct (snd (link_of_relation rel [])) as [l | e] eqn:E.
  - exfalso. revert E. unfold link_of_relation. js_unfold.
    unfold endpoint_missing in H.
    destruct (getProp rel "Source") as [src | e1]; [| discriminate].
    destruct (toString src) as [s | e2] eqn:Es; [| discriminate].
    destruct (getProp rel "Target") as [tgt | e3]; [| discriminate].
    destruct (toString tgt) as [t | e4] eqn:Et; [| discriminate].
    destruct H as [H | H].
    + destruct src; simpl in Es; try discriminate Es; discriminate H.
    + destruct tgt; simpl in Et; try discriminate Et; discriminate H.
  - now rewrite (link_of_relation_throws_TypeError rel e E).
Qed.

Lemma first_encounter_app (l1 l2 seen : list Z) :
  first_encounter seen (l1 ++ l2) =
  first_encounter seen l1 ++
  first_encounter (seen ++ first_encounter seen l1) l2.
Proof.
  revert seen. induction l1 as [| n rest IH]; intro seen; simpl.
  - now rewrite app_nil_r.
  - destruct (Set_has seen n).
    + apply IH.
    + rewrite IH. simpl. now rewrite <- app_assoc.
Qed.

Lemma mapM_link_app (a b : list value) :
  snd (mapM link_of_relation (a ++ b) []) =
  match snd (mapM link_of_relation a []) with
  | Normal la =>
      match snd (mapM link_of_relation b []) with
      | Normal lb => Normal (la ++ lb)
      | Throw e => Throw e
      end
  | Throw e => Throw e
  end.
Proof.
  induction a as [| rel rest IH]; simpl.
  - destruct (snd (mapM link_of_relation b [])); reflexivity.
  - unfold bind. rewrite (link_of_relation_silent rel []).
    destruct (snd (link_of_relation rel [])) as [l | e]; [| reflexivity].
    rewrite (mapM_link_silent (rest ++ b)), (mapM_link_silent rest), IH.
    destruct (snd (mapM link_of_relation rest [])) as [la | e];
      [| reflexivity].
    destruct (snd (mapM link_of_relation b [])); reflexivity.
Qed.

(** X1: when the try block completes, the node ids are exactly the string
    forms of the Sources and Targets of the records that passed the guard:
    none is invented and none is lost. *)
Theorem X1_node_ids_are_the_valid_endpoints
        (records : list value) (c c' : Console) (g : Graph) (i : string) :
  transform_try (VArr records) c = (c', Normal g) ->
  (In i (map id (nodes g)) <->
   exists rel s t,
     In rel records /\ numeric_endpoints rel = Some (s, t) /\
     (i = Number_toString s \/ i = Number_toString t)).
Proof.
  rewrite transform_try_array.
  destruct (snd (mapM link_of_relation records [])) as [ls | e];
    [| discriminate].
  intro H. inversion H; subst; clear H. simpl. rewrite map_map. simpl.
  split.
  - intro Hi. apply in_map_iff in Hi. destruct Hi as [n [<- Hn]].
    apply first_encounter_In in Hn. destruct Hn as [Hn _].
    apply endpoint_stream_In in Hn.
    destruct Hn as [rel [s [t [Hrel [E [-> | ->]]]]]]; exists rel, s, t; auto.
  - intros [rel [s [t [Hrel [E Hi]]]]].
    destruct (endpoint_stream_has records rel s t Hrel E) as [Hs Ht].
    apply in_map_iff.
    destruct Hi as [-> | ->]; [exists s | exists t]; (split; [reflexivity |]).
    + destruct (first_encounter_complete _ [] s Hs) as [[] | Hin]; exact Hin.
    + destruct (first_encounter_complete _ [] t Ht) as [[] | Hin]; exact Hin.
Qed.

Lemma X1_node_ids_witness :
  In "2" (map id (nodes {| nodes := [mkNode "1" "Node 1" "Entity";
                                     mkNode "2" "Node 2" "Entity"];
                           links := [mkLink "1" "2" (VStr "KNOWS")] |})) <->
  exists rel s t,
    In rel [relation_typed (VNum 1) (VNum 2) "KNOWS"] /\
    numeric_endpoints rel = Some (s, t) /\
    ("2" = Number_toString s \/ "2" = Number_toString t).
Proof.
  apply (X1_node_ids_are_the_valid_endpoints
           [relation_typed (VNum 1) (VNum 2) "KNOWS"] [] []).
  reflexivity.
Defined.

(** The link of a record carries the record's RelationshipType when that
    is truthy and the default otherwise. *)
Lemma link_of_relation_type_source (rel : value) (l : Link) :
  snd (link_of_relation rel []) = Normal l ->
  exists ty,
    getProp rel "RelationshipType" = Normal ty /\
    link_type l = (if truthy ty then ty else default_link_type).
Proof.
  unfold link_of_relation. js_unfold.
  destruct (getProp rel "Source") as [src | e]; [| discriminate].
  destruct (toString src) as [s | e]; [| discriminate].
  destruct (getProp rel "Target") as [tgt | e]; [| discriminate].
  destruct (toString tgt) as [t | e]; [| discriminate].
  destruct (getProp rel "RelationshipType") as [ty | e]; [| discriminate].
  simpl. intro H. inversion H; subst; simpl. now exists ty.
Qed.

(** X2: when the try block completes, every node of the output is labelled
    ["Node " ++ id], typed ["Entity"] and carries no size or color, and the
    i-th link has the type of the i-th record: its RelationshipType when
    that is truthy, the default otherwise; so the type is always truthy.
    No link has a weight. *)
Theorem X2_output_shape (records : list value) (c c' : Console) (g : Graph) :
  transform_try (VArr records) c = (c', Normal g) ->
  Forall (fun n => label n = ("Node " ++ id n)%string /\
                   node_type n = "Entity" /\
                   size n = None /\ color n = None) (nodes g) /\
  Forall2 (fun rel l =>
             (exists ty,
                getProp rel "RelationshipType" = Normal ty /\
                link_type l = (if truthy ty then ty else default_link_type)) /\
             truthy (link_type l) = true /\
             weight l = None) records (links g).
Proof.
  rewrite transform_try_array.
  destruct (snd (mapM link_of_relation records [])) as [ls | e] eqn:E;
    [| discriminate].
  intro H. inversion H; subst; clear H. simpl. split.
  - apply Forall_forall. intros n Hn. apply in_map_iff in Hn.
    destruct Hn as [z [<- _]]. repeat split.
  - apply mapM_link_pointwise in E. revert E. apply Forall2_impl.
    intros rel l Hl. split; [now apply link_of_relation_type_source |].
    now apply (link_of_relation_type rel).
Qed.

Lemma X2_output_shape_witness :
  Forall (fun n => label n = ("Node " ++ id n)%string /\
                   node_type n = "Entity" /\
                   size n = None /\ color n = None)
         (nodes {| nodes := [mkNode "1" "Node 1" "Entity";
                             mkNode "2" "Node 2" "Entity"];
                   links := [mkLink "1" "2" (VStr "KNOWS");
                             mkLink "2" "1" default_link_type] |}) /\
  Forall2 (fun rel l =>
             (exists ty,
                getProp rel "RelationshipType" = Normal ty /\
                link_type l = (if truthy ty then ty else default_link_type)) /\
             truthy (link_type l) = true /\
             weight l = None)
          [relation_typed (VNum 1) (VNum 2) "KNOWS";
           relation_typed (VNum 2) (VNum 1) ""]
          (links {| nodes := [mkNode "1" "Node 1" "Entity";
                              mkNode "2" "Node 2" "Entity"];
                    links := [mkLink "1" "2" (VStr "KNOWS");
                              mkLink "2" "1" default_link_type] |}).
Proof.
  apply (X2_output_shape
           [relation_typed (VNum 1) (VNum 2) "KNOWS";
            relation_typed (VNum 2) (VNum 1) ""] [] []).
  reflexivity.
Defined.

Lemma all_valid_mapM (records : list value) :
  forallb has_numeric_endpoints records = true ->
  exists ls, snd (mapM link_of_relation records []) = Normal ls.
Proof.
  induction records as [| rel rest IH]; simpl; intro Hall.
  - now eexists.
  - apply andb_prop in Hall. destruct Hall as [Hrel Hrest].
    destruct (valid_record_links rel Hrel) as [l Hl].
    destruct (IH Hrest) as [ls Hls].
    unfold bind. rewrite (link_of_relation_silent rel []), Hl.
    rewrite mapM_link_silent, Hls. now eexists.
Qed.

(** The links of valid records, each with the record it comes from. *)
Lemma valid_links_from_records (records : list value) (ls : list Link) :
  forallb has_numeric_endpoints records = true ->
  snd (mapM link_of_relation records []) = Normal ls ->
  Forall2 (fun rel l =>
             exists s t, In rel records /\
                         numeric_endpoints rel = Some (s, t) /\
                         source l = Number_toString s /\
                         target l = Number_toString t) records ls.
Proof.
  intros Hall E. apply mapM_link_pointwise in E.
  assert (G : forall rs,
             (forall rel, In rel rs -> In rel records) ->
             forallb has_numeric_endpoints rs = true ->
             Forall2 (fun rel l => snd (link_of_relation rel []) = Normal l)
                     rs ls ->
             Forall2 (fun rel l =>
                        exists s t, In rel records /\
                                    numeric_endpoints rel = Some (s, t) /\
                                    source l = Number_toString s /\
                                    target l = Number_toString t) rs ls).
  { clear. intros rs Hsub Hall F.
    induction F as [| rel l rest ls' Hl _ IH]; [constructor |].
    simpl in Hall. apply andb_prop in Hall. destruct Hall as [Hrel Hrest].
    constructor.
    - unfold has_numeric_endpoints in Hrel.
      destruct (numeric_endpoints rel) as [[s t] |] eqn:En; [| discriminate].
      destruct (valid_record_link_ends rel s t l En Hl) as [Hs Ht].
      exists s, t. repeat split; auto. apply Hsub. now left.
    - apply IH; [| assumption]. intros r Hr. apply Hsub. now right. }
  apply G; auto.
Qed.

(** On valid input every link end is the id of a node of the output. *)
Lemma valid_links_closed (records : list value) (ls : list Link) :
  forallb has_numeric_endpoints records = true ->
  snd (mapM link_of_relation records []) = Normal ls ->
  Forall (fun l =>
            In (source l)
               (map id (map node_of_id
                          (first_encounter [] (endpoint_stream records)))) /\
            In (target l)
               (map id (map node_of_id
                          (first_encounter [] (endpoint_stream records)))))
         ls.
Proof.
  intros Hall E. pose proof (valid_links_from_records records ls Hall E) as H.
  rewrite map_map. simpl.
  set (ids := map (fun n => Number_toString n)
                  (first_encounter [] (endpoint_stream records))).
  assert (Hid : forall rel s t,
             In rel records -> numeric_endpoints rel = Some (s, t) ->
             In (Number_toString s) ids /\ In (Number_toString t) ids).
  { intros rel s t Hin En.
    destruct (endpoint_stream_has records rel s t Hin En) as [Hs Ht].
    split; apply in_map.
    - destruct (first_encounter_complete _ [] s Hs) as [[] | H1]; exact H1.
    - destruct (first_encounter_complete _ [] t Ht) as [[] | H1]; exact H1. }
  clearbody ids. clear E Hall. revert H. generalize records at 2.
  intros rs H.
  induction H as [| rel l rest ls' Hl _ IH]; [constructor |].
  constructor; [| exact IH].
  destruct Hl as [s [t [Hin [En [-> ->]]]]].
  now apply (Hid rel).
Qed.

(** X3: on an array whose records all pass the guard, the links come in the
    order of the records, the i-th link joining the string forms of the i-th
    record's Source and Target; and every link end is the id of a node of
    the output. *)
Theorem X3_valid_input_links_follow_records (records : list value)
        (c : Console) :
  forallb has_numeric_endpoints records = true ->
  exists g,
    snd (transformNeo4jData (VArr records) c) = Normal g /\
    Forall2 (fun rel l =>
               exists s t, numeric_endpoints rel = Some (s, t) /\
                           source l = Number_toString s /\
                           target l = Number_toString t)
            records (links g) /\
    Forall (fun l => In (source l) (map id (nodes g)) /\
                     In (target l) (map id (nodes g))) (links g).
Proof.
  intro Hall.
  destruct (all_valid_mapM records Hall) as [ls E].
  rewrite transformNeo4jData_array, E.
  eexists. split; [reflexivity |]. simpl. split.
  - pose proof (valid_links_from_records records ls Hall E) as H.
    revert H. apply Forall2_impl.
    intros rel l [s [t [_ Hl]]]. now exists s, t.
  - now apply valid_links_closed.
Qed.

Lemma X3_valid_input_witness :
  exists g,
    snd (transformNeo4jData
           (VArr [relation (VNum 5) (VNum 3); relation (VNum 3) (VNum 5)]) [])
    = Normal g /\
    Forall2 (fun rel l =>
               exists s t, numeric_endpoints rel = Some (s, t) /\
                           source l = Number_toString s /\
                           target l = Number_toString t)
            [relation (VNum 5) (VNum 3); relation (VNum 3) (VNum 5)]
            (links g) /\
    Forall (fun l => In (source l) (map id (nodes g)) /\
                     In (target l) (map id (nodes g))) (links g).
Proof.
  apply (X3_valid_input_links_follow_records
           [relation (VNum 5) (VNum 3); relation (VNum 3) (VNum 5)] []).
  reflexivity.
Defined.

Lemma warnings_count (records : list value) :
  (List.length (warnings_for records) + valid_record_count records
   = List.length records)%nat.
Proof.
  unfold warnings_for, valid_record_count.
  induction records as [| rel rest IH]; simpl; [reflexivity |].
  destruct (has_numeric_endpoints rel); simpl; lia.
Qed.

(** X4: on every array the normalizer logs one warning for each record that
    fails the guard, in order, and after them at most one error, which is a
    TypeError.  The outcome is all or nothing: without the error there is
    one link for every record of the array, with it the graph is empty. *)
Theorem X4_array_log_and_outcome (records : list value) (c : Console) :
  exists g tail,
    transformNeo4jData (VArr records) c
    = (c ++ warnings_for records ++ tail, Normal g) /\
    (List.length (warnings_for records) + valid_record_count records
     = List.length records)%nat /\
    ((tail = [] /\ List.length (links g) = List.length records) \/
     (tail = [ConsoleError transform_failed_msg JsTypeError] /\
      g = empty_graph)).
Proof.
  rewrite transformNeo4jData_array.
  destruct (snd (mapM link_of_relation records [])) as [ls | e] eqn:E.
  - eexists. exists []. rewrite app_nil_r.
    split; [reflexivity | split; [apply warnings_count |]].
    left. split; [reflexivity |]. simpl.
    apply (mapM_length link_of_relation records [] []).
    rewrite mapM_link_silent, E. reflexivity.
  - rewrite (mapM_link_throws_TypeError records e E).
    exists empty_graph. eexists.
    split; [reflexivity | split; [apply warnings_count |]].
    right. split; reflexivity.
Qed.

(** X5: appending records to an array the normalizer handles keeps what was
    there: when the longer array goes through the try block, so does the
    shorter one, and the longer output has the shorter output's nodes and
    links as a prefix, the new ones after them. *)
Theorem X5_appending_records_extends_output
        (records more : list value) (c c2 : Console) (g2 : Graph) :
  transform_try (VArr (records ++ more)) c = (c2, Normal g2) ->
  exists c1 g1 new_nodes new_links,
    transform_try (VArr records) c = (c1, Normal g1) /\
    nodes g2 = nodes g1 ++ new_nodes /\
    links g2 = links g1 ++ new_links.
Proof.
  rewrite !transform_try_array, mapM_link_app.
  destruct (snd (mapM link_of_relation records [])) as [la | e];
    [| discriminate].
  destruct (snd (mapM link_of_relation more [])) as [lb | e];
    [| discriminate].
  intro H. inversion H; subst; clear H.
  do 4 eexists. split; [reflexivity |]. simpl.
  unfold endpoint_stream. rewrite flat_map_app.
  rewrite first_encounter_app, map_app. split; reflexivity.
Qed.

Lemma X5_appending_records_witness :
  exists c1 g1 new_nodes new_links,
    transform_try (VArr [relation (VNum 1) (VNum 2)]) [] = (c1, Normal g1) /\
    nodes {| nodes := [mkNode "1" "Node 1" "Entity";
                       mkNode "2" "Node 2" "Entity";
                       mkNode "3" "Node 3" "Entity"];
             links := [mkLink "1" "2" default_link_type;
                       mkLink "3" "1" default_link_type] |}
    = nodes g1 ++ new_nodes /\
    links {| nodes := [mkNode "1" "Node 1" "Entity";
                       mkNode "2" "Node 2" "Entity";
                       mkNode "3" "Node 3" "Entity"];
             links := [mkLink "1" "2" default_link_type;
                       mkLink "3" "1" default_link_type] |}
    = links g1 ++ new_links.
Proof.
  apply (X5_appending_records_extends_output
           [relation (VNum 1) (VNum 2)] [relation (VNum 3) (VNum 1)] [] []).
  reflexivity.
Defined.

(** X6: one record without a usable Source or Target (a [null] or
    [undefined] record, a record that is not an object, a missing or [null]
    property) empties the whole output: the graph is the empty graph and the
    last diagnostic is the catch block's error, a TypeError. *)
Theorem X6_missing_endpoint_empties_output
        (records : list value) (rel : value) (c : Console) :
  In rel records ->
  endpoint_missing rel "Source" = true \/ endpoint_missing rel "Target" = true ->
  transformNeo4jData (VArr records) c
  = (c ++ warnings_for records ++
       [ConsoleError transform_failed_msg JsTypeError],
     Normal empty_graph).
Proof.
  intros Hin Hmiss. rewrite transformNeo4jData_array.
  destruct (mapM_link_throws records rel JsTypeError Hin
              (missing_endpoint_throws rel Hmiss)) as [e E].
  rewrite E. now rewrite (mapM_link_throws_TypeError records e E).
Qed.

Lemma X6_missing_endpoint_witness :
  transformNeo4jData
    (VArr [relation (VNum 1) (VNum 2); VObj [("Source", VNum 7)]]) []
  = ([] ++ warnings_for [relation (VNum 1) (VNum 2); VObj [("Source", VNum 7)]]
        ++ [ConsoleError transform_failed_msg JsTypeError],
     Normal empty_graph).
Proof.
  apply (X6_missing_endpoint_empties_output
           [relation (VNum 1) (VNum 2); VObj [("Source", VNum 7)]]
           (VObj [("Source", VNum 7)]) []).
  - right. now left.
  - right. reflexivity.
Defined.

(** * Further properties of the drag handlers *)

Lemma update_nth_const_compose {A} (f : A -> A) (a : A) (l : list A) (j : nat) :
  update_nth j f (update_nth j (fun _ => a) l) = update_nth j (fun _ => f a) l.
Proof.
  revert j. induction l as [| b rest IH]; intros [| j]; simpl;
    try reflexivity. now rewrite IH.
Qed.

Lemma update_nth_at {A} (f : A -> A) (l : list A) (j : nat) (d : A) :
  nth_error l j = Some d -> update_nth j f l = update_nth j (fun _ => f d) l.
Proof.
  revert j. induction l as [| b rest IH]; intros [| j] H; simpl in *;
    try discriminate.
  - now inversion H.
  - now rewrite (IH j H).
Qed.

Lemma update_nth_same_value {A} (l : list A) (j : nat) (d : A) :
  nth_error l j = Some d -> update_nth j (fun _ => d) l = l.
Proof.
  revert j. induction l as [| b rest IH]; intros [| j] H; simpl in *;
    try discriminate.
  - now inversion H.
  - now rewrite (IH j H).
Qed.

Lemma map_update_nth {A B} (g : A -> B) (f : A -> A) (l : list A) (j : nat) :
  (forall a, g (f a) = g a) -> map g (update_nth j f l) = map g l.
Proof.
  intro H. revert j. induction l as [| b rest IH]; intros [| j]; simpl;
    try reflexivity.
  - now rewrite H.
  - now rewrite IH.
Qed.

(** During the moves of a gesture only the pin of the dragged node
    changes. *)
Lemma moves_keep_pinned_shape (moves : list DragEvent) (j : nat)
      (d : SimNode) (ns : list SimNode) (sim : Simulation) :
  (exists p q, sim_nodes sim = update_nth j (fun _ => set_pin p q d) ns) ->
  (exists p q,
     sim_nodes (fold_left (fun s e => dragged e j s) moves sim)
     = update_nth j (fun _ => set_pin p q d) ns) /\
  alphaTarget (fold_left (fun s e => dragged e j s) moves sim)
  = alphaTarget sim /\
  running (fold_left (fun s e => dragged e j s) moves sim) = running sim /\
  sim_links (fold_left (fun s e => dragged e j s) moves sim) = sim_links sim.
Proof.
  revert sim. induction moves as [| e rest IH]; intros sim H; simpl.
  - auto.
  - destruct (IH (dragged e j sim)) as [H1 [H2 [H3 H4]]].
    + destruct H as [p [q H]].
      exists (Some (event_x e)), (Some (event_y e)).
      unfold dragged. simpl. rewrite H.
      now rewrite update_nth_const_compose.
    + auto.
Qed.

(** X7: a whole gesture (start, any number of moves, end) during which no
    tick runs leaves every node as it was, the dragged one included when it
    was not pinned before: same data, same position, same velocity, no pin.
    The links are untouched; the target alpha ends at 0 when no other
    gesture is active at the end, and the timer restarted by the start is
    left running. *)
Theorem X7_gesture_without_tick_restores_nodes
        (start finish : DragEvent) (moves : list DragEvent) (j : nat)
        (sim : Simulation) (d : SimNode) :
  nth_error (sim_nodes sim) j = Some d -> fx d = None -> fy d = None ->
  sim_nodes (gesture start moves finish j sim) = sim_nodes sim /\
  sim_links (gesture start moves finish j sim) = sim_links sim /\
  alphaTarget (gesture start moves finish j sim)
  = (if Nat.eqb (active finish) 0 then 0%Q
     else if Nat.eqb (active start) 0 then reheat_alpha
          else alphaTarget sim) /\
  running (gesture start moves finish j sim)
  = (if Nat.eqb (active start) 0 then true else running sim).
Proof.
  intros Hj Hfx Hfy. unfold gesture.
  assert (Hstart : exists p q,
             sim_nodes (dragstarted start j sim)
             = update_nth j (fun _ => set_pin p q d) (sim_nodes sim)).
  { exists (Some (x d)), (Some (y d)). unfold dragstarted.
    destruct (Nat.eqb (active start) 0); simpl;
      now rewrite (update_nth_at _ _ _ _ Hj). }
  destruct (moves_keep_pinned_shape moves j d (sim_nodes sim)
              (dragstarted start j sim) Hstart)
    as [[p [q Hn]] [Ha [Hr Hl]]].
  set (s1 := fold_left (fun s e => dragged e j s) moves
                       (dragstarted start j sim)) in *.
  assert (Hend : update_nth j (set_pin None None) (sim_nodes s1)
                 = sim_nodes sim).
  { rewrite Hn, update_nth_const_compose.
    replace (set_pin None None (set_pin p q d)) with d.
    - now apply update_nth_same_value.
    - destruct d; simpl in *; subst; reflexivity. }
  unfold dragended.
  destruct (Nat.eqb (active finish) 0); simpl; rewrite Hend;
    (split; [reflexivity |]); rewrite ?Ha, ?Hr, ?Hl; unfold dragstarted;
    destruct (Nat.eqb (active start) 0); simpl; auto.
Qed.

Lemma X7_gesture_witness :
  sim_nodes (gesture (pointer_at 0 10 20)
                     [pointer_at 0 300 300; pointer_at 0 500 500]
                     (pointer_at 0 500 500) 0 reheated_simulation)
  = sim_nodes reheated_simulation /\
  sim_links (gesture (pointer_at 0 10 20)
                     [pointer_at 0 300 300; pointer_at 0 500 500]
                     (pointer_at 0 500 500) 0 reheated_simulation)
  = sim_links reheated_simulation /\
  alphaTarget (gesture (pointer_at 0 10 20)
                       [pointer_at 0 300 300; pointer_at 0 500 500]
                       (pointer_at 0 500 500) 0 reheated_simulation)
  = (if Nat.eqb (active (pointer_at 0 500 500)) 0 then 0%Q
     else if Nat.eqb (active (pointer_at 0 10 20)) 0 then reheat_alpha
          else alphaTarget reheated_simulation) /\
  running (gesture (pointer_at 0 10 20)
                   [pointer_at 0 300 300; pointer_at 0 500 500]
                   (pointer_at 0 500 500) 0 reheated_simulation)
  = (if Nat.eqb (active (pointer_at 0 10 20)) 0 then true
     else running reheated_simulation).
Proof.
  apply (X7_gesture_without_tick_restores_nodes
           (pointer_at 0 10 20) (pointer_at 0 500 500)
           [pointer_at 0 300 300; pointer_at 0 500 500] 0
           reheated_simulation resting_node); reflexivity.
Defined.

(** X8: no drag handler moves a node or touches anything but the pin of the
    node it is called for: every node keeps its data, position and velocity,
    every other node keeps its pin, and the links, the tick listener and the
    count of delivered ticks are as before.  An index that names no node
    changes no node at all. *)
Theorem X8_drag_handlers_only_write_the_pin
        (e : DragEvent) (j : nat) (sim : Simulation) :
  (map unpinned_part (sim_nodes (dragstarted e j sim))
   = map unpinned_part (sim_nodes sim) /\
   map unpinned_part (sim_nodes (dragged e j sim))
   = map unpinned_part (sim_nodes sim) /\
   map unpinned_part (sim_nodes (dragended e j sim))
   = map unpinned_part (sim_nodes sim)) /\
  (forall k, k <> j ->
     nth_error (sim_nodes (dragstarted e j sim)) k
     = nth_error (sim_nodes sim) k /\
     nth_error (sim_nodes (dragged e j sim)) k = nth_error (sim_nodes sim) k /\
     nth_error (sim_nodes (dragended e j sim)) k
     = nth_error (sim_nodes sim) k) /\
  (sim_links (dragstarted e j sim) = sim_links sim /\
   sim_links (dragged e j sim) = sim_links sim /\
   sim_links (dragended e j sim) = sim_links sim) /\
  (listening (dragstarted e j sim) = listening sim /\
   listening (dragged e j sim) = listening sim /\
   listening (dragended e j sim) = listening sim) /\
  (ticks_delivered (dragstarted e j sim) = ticks_delivered sim /\
   ticks_delivered (dragged e j sim) = ticks_delivered sim /\
   ticks_delivered (dragended e j sim) = ticks_delivered sim) /\
  (nth_error (sim_nodes sim) j = None ->
   sim_nodes (dragstarted e j sim) = sim_nodes sim /\
   sim_nodes (dragged e j sim) = sim_nodes sim /\
   sim_nodes (dragended e j sim) = sim_nodes sim).
Proof.
  assert (Hnone : forall (f : SimNode -> SimNode) ns,
             nth_error ns j = None -> update_nth j f ns = ns).
  { intros f ns. revert j. clear.
    induction ns as [| b rest IH]; intros [| j] H; simpl in *;
      try discriminate; try reflexivity. now rewrite IH. }
  unfold dragstarted, dragged, dragended.
  split; [| split; [| split; [| split; [| split]]]].
  - destruct (Nat.eqb (active e) 0); simpl;
      repeat split; apply map_update_nth; intro a; reflexivity.
  - intros k Hk.
    destruct (Nat.eqb (active e) 0); simpl;
      rewrite !nth_error_update_nth_other by auto; auto.
  - destruct (Nat.eqb (active e) 0); simpl; auto.
  - destruct (Nat.eqb (active e) 0); simpl; auto.
  - destruct (Nat.eqb (active e) 0); simpl; auto.
  - intro H. destruct (Nat.eqb (active e) 0); simpl;
      rewrite !Hnone by assumption; auto.
Qed.

(** * Further properties of the component *)

Lemma update_nth_last {A} (f : A -> A) (l : list A) (a : A) :
  update_nth (List.length l) f (l ++ [a]) = l ++ [f a].
Proof.
  induction l as [| b rest IH]; simpl; [reflexivity | now rewrite IH].
Qed.

(** The setup when the simulation can be created: one more simulation, with
    its listener; one more layer when the ref is attached; nothing logged. *)
Lemma setup_graph_success (engine : Engine) (data : Graph) (v : View)
      (sim : Simulation) :
  forceSimulation engine data = Normal sim ->
  setup_graph engine data v =
  ({| svgRef_current := svgRef_current v;
      svg := if svgRef_current v
             then with_layer (fresh_layer (List.length (simulations v)) data)
                             (svg v)
             else svg v;
      simulations := simulations v ++ [subscribed sim];
      console := console v |},
   Normal tt).
Proof.
  intro H. unfold setup_graph, bind, lift, get, modify, ret. rewrite H.
  destruct v as [ref s sims c]. simpl.
  destruct ref; simpl; unfold set_simulations; simpl;
    now rewrite update_nth_last.
Qed.

Lemma setup_graph_failure (engine : Engine) (data : Graph) (v : View)
      (e : exn) :
  forceSimulation engine data = Throw e ->
  setup_graph engine data v = (v, Throw e).
Proof.
  intro H. unfold setup_graph, bind, lift. now rewrite H.
Qed.

(** A simulation fresh from the setup. *)
Lemma forceSimulation_fresh (engine : Engine) (data : Graph)
      (sim : Simulation) :
  forceSimulation engine data = Normal sim ->
  running sim = true /\ listening sim = false /\ alphaTarget sim = 0%Q /\
  ticks_delivered sim = 0%nat /\
  map datum (sim_nodes sim) = nodes data /\
  List.length (sim_links sim) = List.length (links data).
Proof.
  unfold forceSimulation.
  destruct (resolve_links (nodes data) (links data)) as [ls |] eqn:E;
    [| discriminate].
  simpl. intro H. inversion H; subst; clear H. simpl.
  repeat split.
  - clear E. generalize 0%nat.
    induction (nodes data) as [| n rest IH]; intro k; simpl;
      [reflexivity | f_equal; apply IH].
  - revert ls E. generalize (nodes data). intro ns.
    induction (links data) as [| l rest IH]; intros ls E; simpl in E.
    + now inversion E.
    + destruct (resolve_link ns l); [| discriminate].
      destruct (resolve_links ns rest) as [rs |]; [| discriminate].
      simpl in E. inversion E; subst. simpl. f_equal. now apply IH.
Qed.

(** On any console the normalizer appends its log and returns its graph. *)
Lemma transformNeo4jData_on (rawData : value) (c : Console) :
  transformNeo4jData rawData c
  = (c ++ normalizer_log rawData, Normal (normalized rawData)).
Proof.
  rewrite (framed_transformNeo4jData rawData c).
  unfold normalizer_log, normalized.
  destruct rawData;
    try (rewrite !transformNeo4jData_not_array by discriminate; reflexivity).
  rewrite transformNeo4jData_array.
  destruct (snd (mapM link_of_relation elems [])); reflexivity.
Qed.

(** [renderGraph] on a response it accepts, in terms of the normalizer's
    graph. *)
Lemma renderGraph_resume_accepted (engine : Engine) (status : Z)
      (rawData : value) (v : View) :
  response_ok status = true ->
  renderGraph_resume engine (Responded status (Some rawData)) v =
  let v1 := set_console (console v ++ normalizer_log rawData) v in
  match nodes (normalized rawData) with
  | [] => (set_console (console v1 ++ [ConsoleWarn no_nodes_msg None]) v1,
           Normal tt)
  | _ :: _ =>
      match forceSimulation engine (normalized rawData) with
      | Normal sim =>
          ({| svgRef_current := svgRef_current v;
              svg := if svgRef_current v
                     then with_layer
                            (fresh_layer (List.length (simulations v))
                                         (normalized rawData)) (svg v)
                     else svg v;
              simulations := simulations v ++ [subscribed sim];
              console := console v ++ normalizer_log rawData |},
           Normal tt)
      | Throw e =>
          (set_console (console v1 ++ [ConsoleError render_failed_msg e]) v1,
           Normal tt)
      end
  end.
Proof.
  intro Hok. unfold renderGraph_resume, try_catch, bind, on_console.
  rewrite Hok. change (negb true) with false. cbv beta iota.
  rewrite transformNeo4jData_on. cbv beta iota zeta.
  destruct (nodes (normalized rawData)) as [| n rest] eqn:En.
  - reflexivity.
  - simpl Nat.eqb. cbv beta iota.
    destruct (forceSimulation engine (normalized rawData)) as [sim | e] eqn:Ef.
    + rewrite (setup_graph_success _ _ _ _ Ef). reflexivity.
    + rewrite (setup_graph_failure _ _ _ _ Ef). reflexivity.
Qed.

Lemma node_position_nth (sim : Simulation) (k : nat) :
  node_position sim k = nth k (map position (sim_nodes sim)) (0%Q, 0%Q).
Proof.
  unfold node_position. generalize (sim_nodes sim). intro ns. revert k.
  induction ns as [| d rest IH]; intros [| k]; simpl; try reflexivity.
  apply IH.
Qed.

(** X9: when the timer of a running simulation with a subscribed listener
    fires, every layer of that simulation is redrawn from the simulation's
    nodes after the tick: the circles and the labels sit at the nodes'
    positions and every line runs between the circles of its two endpoint
    nodes.  Layers of other simulations are left as they are, and no layer
    changes the data bound to it. *)
Theorem X9_tick_listener_redraws_own_layers
        (engine : Engine) (k : nat) (v : View) (sim : Simulation) :
  nth_error (simulations v) k = Some sim ->
  running sim = true -> listening sim = true ->
  Forall2
    (fun before after =>
       bound_data after = bound_data before /\
       if Nat.eqb (layer_simulation before) k
       then circle_at after = map position (sim_nodes (tick engine sim)) /\
            label_at after = map position (sim_nodes (tick engine sim)) /\
            line_at after =
            map (fun lk => (nth (source_node lk) (circle_at after) (0%Q, 0%Q),
                            nth (target_node lk) (circle_at after) (0%Q, 0%Q)))
                (sim_links sim)
       else after = before)
    (layers (svg v)) (layers (svg (timer_tick engine k v))).
Proof.
  intros Hk Hr Hl.
  assert (Hl' : listening (tick engine sim) = true) by exact Hl.
  set (sim2 := {| sim_nodes := sim_nodes (tick engine sim);
                  sim_links := sim_links (tick engine sim);
                  alphaTarget := alphaTarget (tick engine sim);
                  running := running (tick engine sim);
                  listening := listening (tick engine sim);
                  ticks_delivered := S (ticks_delivered (tick engine sim)) |}).
  assert (HL : layers (svg (timer_tick engine k v))
               = map (fun l => if Nat.eqb (layer_simulation l) k
                               then draw sim2 l else l) (layers (svg v))).
  { unfold timer_tick. rewrite Hk, Hr, Hl'. reflexivity. }
  rewrite HL. clear HL.
  induction (layers (svg v)) as [| l rest IH]; simpl; [constructor |].
  constructor; [| exact IH].
  destruct (Nat.eqb (layer_simulation l) k).
  - split; [reflexivity |]. unfold draw. cbn [circle_at label_at line_at].
    split; [reflexivity |]. split; [reflexivity |].
    change (sim_links sim2) with (sim_links sim).
    apply map_ext. intro lk.
    rewrite !node_position_nth. reflexivity.
  - split; reflexivity.
Qed.

Lemma X9_tick_listener_witness :
  Forall2
    (fun before after =>
       bound_data after = bound_data before /\
       if Nat.eqb (layer_simulation before) 0
       then circle_at after
            = map position (sim_nodes (tick still_engine reheated_simulation)) /\
            label_at after
            = map position (sim_nodes (tick still_engine reheated_simulation)) /\
            line_at after =
            map (fun lk => (nth (source_node lk) (circle_at after) (0%Q, 0%Q),
                            nth (target_node lk) (circle_at after) (0%Q, 0%Q)))
                (sim_links reheated_simulation)
       else after = before)
    (layers (svg {| svgRef_current := true;
                    svg := with_layer (fresh_layer 0 graph_one_two) blank_svg;
                    simulations := [reheated_simulation];
                    console := [] |}))
    (layers (svg (timer_tick still_engine 0
                    {| svgRef_current := true;
                       svg := with_layer (fresh_layer 0 graph_one_two)
                                         blank_svg;
                       simulations := [reheated_simulation];
                       console := [] |}))).
Proof.
  apply (X9_tick_listener_redraws_own_layers still_engine 0
           {| svgRef_current := true;
              svg := with_layer (fresh_layer 0 graph_one_two) blank_svg;
              simulations := [reheated_simulation];
              console := [] |} reheated_simulation); reflexivity.
Defined.

(** X10: when a response is accepted and its body normalizes to a graph
    without nodes (an empty array, a body that is not an array, records that
    all fail the guard, a record that emptied the output), the JavaScript
    component draws nothing and starts nothing; after the normalizer's own
    diagnostics it logs the "no valid node data" warning. *)
Theorem X10_empty_normalized_graph_warns
        (engine : Engine) (status : Z) (rawData : value) (v : View) :
  response_ok status = true ->
  nodes (normalized rawData) = [] ->
  renderGraph_resume engine (Responded status (Some rawData)) v =
  (set_console
     (console v ++ normalizer_log rawData ++ [ConsoleWarn no_nodes_msg None])
     v,
   Normal tt).
Proof.
  intros Hok Hn. rewrite (renderGraph_resume_accepted _ _ _ _ Hok).
  cbv zeta. rewrite Hn. unfold set_console. simpl.
  now rewrite <- app_assoc.
Qed.

Lemma X10_empty_normalized_witness :
  renderGraph_resume still_engine
    (Responded 200 (Some (VObj [("nodes", VArr [])]))) mounted_view =
  (set_console
     (console mounted_view ++ normalizer_log (VObj [("nodes", VArr [])]) ++
      [ConsoleWarn no_nodes_msg None]) mounted_view,
   Normal tt).
Proof.
  apply (X10_empty_normalized_graph_warns still_engine 200
           (VObj [("nodes", VArr [])]) mounted_view); reflexivity.
Defined.

(** A list is not itself with one more element. *)
Lemma app_one_more {A} (l : list A) (a : A) : l ++ [a] <> l.
Proof.
  intro H. apply (f_equal (@List.length A)) in H.
  rewrite length_app in H. simpl in H. lia.
Qed.

Lemma only_logged_error (w : bool) (msg : string) (v : View)
      (earlier : Console) (e : exn) :
  only_logged w msg v
    (set_console (console v ++ earlier ++ [ConsoleError msg e]) v).
Proof.
  repeat split. exists earlier, (ConsoleError msg e).
  split; [reflexivity |]. right. now exists e.
Qed.

Lemma only_logged_ends (w : bool) (msg : string) (v v' : View) :
  only_logged w msg v v' -> ends_with_own_diagnostic w msg v v'.
Proof. intros [_ [_ [_ H]]]. exact H. Qed.

(** X11: what one settled load of the JavaScript component can do.  It
    never detaches the ref.  When it does not reach the simulation setup
    (the fetch rejected, the status is not a success, the body is not JSON,
    or the normalized graph has no node) it leaves the simulations and the
    svg untouched and logs at least one diagnostic, the last being its own
    warning or its own error.  In every case it keeps the simulations and
    the layers that exist and adds at most one of each after them; and when
    the ref is attached and no layer was added, a diagnostic was logged, the
    last being its own warning or error: it never fails silently. *)
Theorem X11_renderGraph_load_outcomes
        (engine : Engine) (outcome : fetch_outcome value) (v : View) :
  svgRef_current (fst (renderGraph_resume engine outcome v))
  = svgRef_current v /\
  (reaches_setup outcome = false ->
   only_logged true render_failed_msg v
               (fst (renderGraph_resume engine outcome v))) /\
  (exists new_simulations,
     simulations (fst (renderGraph_resume engine outcome v))
     = simulations v ++ new_simulations /\
     (List.length new_simulations <= 1)%nat) /\
  (exists new_layers,
     layers (svg (fst (renderGraph_resume engine outcome v)))
     = layers (svg v) ++ new_layers /\
     (List.length new_layers <= 1)%nat) /\
  (svgRef_current v = true ->
   layers (svg (fst (renderGraph_resume engine outcome v))) = layers (svg v) ->
   ends_with_own_diagnostic true render_failed_msg v
                            (fst (renderGraph_resume engine outcome v))).
Proof.
  assert (Hquiet : forall v',
             only_logged true render_failed_msg v v' ->
             svgRef_current v' = svgRef_current v /\
             (reaches_setup outcome = false ->
              only_logged true render_failed_msg v v') /\
             (exists new_simulations,
                simulations v' = simulations v ++ new_simulations /\
                (List.length new_simulations <= 1)%nat) /\
             (exists new_layers,
                layers (svg v') = layers (svg v) ++ new_layers /\
                (List.length new_layers <= 1)%nat) /\
             (svgRef_current v = true ->
              layers (svg v') = layers (svg v) ->
              ends_with_own_diagnostic true render_failed_msg v v')).
  { intros v' H. pose proof H as [H1 [H2 [H3 H4]]].
    split; [exact H1 |]. split; [auto |].
    split; [exists []; rewrite H2, app_nil_r; auto |].
    split; [exists []; rewrite H3, app_nil_r; auto | auto]. }
  destruct (transport_failure outcome) eqn:Ht.
  - rewrite (renderGraph_transport_failure _ _ _ Ht). apply Hquiet.
    apply (only_logged_error true render_failed_msg v []).
  - destruct outcome as [e | status [rawData |]]; simpl in Ht;
      [discriminate | |].
    + apply negb_false_iff in Ht.
      rewrite (renderGraph_resume_accepted _ _ _ _ Ht). cbv zeta.
      assert (Hreach : nodes (normalized rawData) <> [] ->
                       reaches_setup (Responded status (Some rawData))
                       = false -> False).
      { unfold reaches_setup. rewrite Ht.
        destruct (nodes (normalized rawData)); [congruence | discriminate]. }
      destruct (nodes (normalized rawData)) as [| n rest] eqn:En.
      * apply Hquiet. repeat split.
        exists (normalizer_log rawData), (ConsoleWarn no_nodes_msg None).
        split; [simpl; now rewrite <- app_assoc | left; auto].
      * destruct (forceSimulation engine (normalized rawData))
          as [sim | e] eqn:Ef.
        -- simpl. split; [reflexivity |].
           split; [intro H; exfalso; apply Hreach; [discriminate | exact H] |].
           split; [exists [subscribed sim]; auto |].
           destruct (svgRef_current v).
           ++ split.
              ** eexists. split; [reflexivity | simpl; lia].
              ** intros _ H. simpl in H. now apply app_one_more in H.
           ++ split; [exists []; rewrite app_nil_r; auto | discriminate].
        -- assert (Hl : only_logged true render_failed_msg v
                          (set_console
                             (console
                                (set_console
                                   (console v ++ normalizer_log rawData) v)
                              ++ [ConsoleError render_failed_msg e])
                             (set_console
                                (console v ++ normalizer_log rawData) v))).
           { repeat split.
             exists (normalizer_log rawData),
                    (ConsoleError render_failed_msg e).
             split; [simpl; now rewrite <- app_assoc |]. right. now exists e. }
           simpl fst.
           split; [reflexivity |].
           split; [intro H; exfalso; apply Hreach; [discriminate | exact H] |].
           split; [exists []; simpl; rewrite app_nil_r; auto |].
           split; [exists []; simpl; rewrite app_nil_r; auto |].
           intros _ _. exact (only_logged_ends _ _ _ _ Hl).
    + apply negb_false_iff in Ht.
      assert (E : renderGraph_resume engine (Responded status None) v
                  = (set_console
                       (console v ++ [] ++
                        [ConsoleError render_failed_msg JsSyntaxError]) v,
                     Normal tt)).
      { unfold renderGraph_resume, try_catch. now rewrite Ht. }
      rewrite E. apply Hquiet. apply only_logged_error.
Qed.

(** [loadAndRender] on a body with at least one node. *)
Lemma loadAndRender_resume_graph (engine : Engine) (status : Z)
      (data : Graph) (v : View) :
  nodes data <> [] ->
  loadAndRender_resume engine (Responded status (Some data)) v =
  match forceSimulation engine data with
  | Normal sim =>
      ({| svgRef_current := svgRef_current v;
          svg := if svgRef_current v
                 then with_layer
                        (fresh_layer (List.length (simulations v)) data)
                        (svg v)
                 else svg v;
          simulations := simulations v ++ [subscribed sim];
          console := console v |},
       Normal tt)
  | Throw e =>
      (set_console (console v ++ [ConsoleError render_error_msg e]) v,
       Normal tt)
  end.
Proof.
  intro Hn. unfold loadAndRender_resume, try_catch.
  destruct (nodes data) as [| n rest] eqn:En; [contradiction |].
  simpl Nat.eqb. cbv iota.
  destruct (forceSimulation engine data) as [sim | e] eqn:Ef.
  - rewrite (setup_graph_success _ _ _ _ Ef). reflexivity.
  - rewrite (setup_graph_failure _ _ _ _ Ef). reflexivity.
Qed.


Lemma index_of_id_found (i : string) (ns : list Node) :
  In i (map id ns) -> exists k, index_of_id i ns = Some k.
Proof.
  intro H. destruct (index_of_id i ns) as [k |] eqn:E; [now exists k |].
  apply index_of_id_None in E. contradiction.
Qed.

(** Links whose ends are all declared resolve. *)
Lemma resolve_links_closed (ns : list Node) (ls : list Link) :
  Forall (fun l => In (source l) (map id ns) /\ In (target l) (map id ns)) ls ->
  exists rs, resolve_links ns ls = Normal rs.
Proof.
  induction 1 as [| l rest [Hs Ht] _ [rs IH]]; simpl; [now eexists |].
  unfold resolve_link.
  destruct (index_of_id_found _ _ Hs) as [a ->].
  destruct (index_of_id_found _ _ Ht) as [b ->].
  simpl. rewrite IH. simpl. now eexists.
Qed.

Lemma all_valid_no_warnings (records : list value) :
  forallb has_numeric_endpoints records = true -> warnings_for records = [].
Proof.
  unfold warnings_for.
  induction records as [| rel rest IH]; simpl; intro H; [reflexivity |].
  apply andb_prop in H. destruct H as [Hrel Hrest].
  rewrite Hrel. simpl. now apply IH.
Qed.

Lemma valid_records_have_nodes (records : list value) :
  records <> [] -> forallb has_numeric_endpoints records = true ->
  first_encounter [] (endpoint_stream records) <> [].
Proof.
  destruct records as [| rel rest]; [contradiction |].
  intros _ H. simpl in H. apply andb_prop in H. destruct H as [Hrel _].
  unfold has_numeric_endpoints in Hrel. unfold endpoint_stream. simpl.
  destruct (numeric_endpoints rel) as [[s t] |]; [| discriminate].
  simpl. discriminate.
Qed.

(** The normalizer's graph for an array of valid records. *)
Lemma normalized_valid (records : list value) :
  forallb has_numeric_endpoints records = true ->
  normalizer_log (VArr records) = [] /\
  exists ls,
    snd (mapM link_of_relation records []) = Normal ls /\
    normalized (VArr records)
    = {| nodes := map node_of_id
                      (first_encounter [] (endpoint_stream records));
         links := ls |}.
Proof.
  intro Hall. destruct (all_valid_mapM records Hall) as [ls E].
  unfold normalizer_log, normalized.
  rewrite transformNeo4jData_array, E. simpl.
  rewrite (all_valid_no_warnings records Hall).
  split; [reflexivity |]. now exists ls.
Qed.

(** X13: an accepted response whose body is a non-empty array of records
    that all pass the guard is always drawn by the JavaScript component:
    nothing is logged and one simulation starts, over one node for every
    distinct endpoint, in first-encounter order, and one link for every
    record (link resolution as the engine model has it).  The same graph,
    which is what the conversion script writes for that export, is set up by
    the TypeScript component without a diagnostic as well. *)
Theorem X13_valid_export_is_drawn
        (engine : Engine) (status : Z) (records : list value) (v : View) :
  response_ok status = true ->
  records <> [] ->
  forallb has_numeric_endpoints records = true ->
  exists sim,
    map datum (sim_nodes sim)
    = map node_of_id (first_encounter [] (endpoint_stream records)) /\
    List.length (sim_links sim) = List.length records /\
    running sim = true /\
    fst (renderGraph_resume engine (Responded status (Some (VArr records))) v)
    = {| svgRef_current := svgRef_current v;
         svg := if svgRef_current v
                then with_layer
                       (fresh_layer (List.length (simulations v))
                                    (normalized (VArr records))) (svg v)
                else svg v;
         simulations := simulations v ++ [subscribed sim];
         console := console v |} /\
    fst (loadAndRender_resume engine
           (Responded status (Some (normalized (VArr records)))) v)
    = {| svgRef_current := svgRef_current v;
         svg := if svgRef_current v
                then with_layer
                       (fresh_layer (List.length (simulations v))
                                    (normalized (VArr records))) (svg v)
                else svg v;
         simulations := simulations v ++ [subscribed sim];
         console := console v |}.
Proof.
  intros Hok Hne Hall.
  destruct (normalized_valid records Hall) as [Hlog [ls [E Hg]]].
  pose proof (valid_records_have_nodes records Hne Hall) as Hnodes.
  destruct (resolve_links_closed _ ls (valid_links_closed records ls Hall E))
    as [rs Hrs].
  assert (Hf : exists sim,
             forceSimulation engine (normalized (VArr records)) = Normal sim).
  { unfold forceSimulation. rewrite Hg. simpl. rewrite Hrs. simpl.
    now eexists. }
  destruct Hf as [sim Hf].
  destruct (forceSimulation_fresh _ _ _ Hf) as [Hr [_ [_ [_ [Hd Hl]]]]].
  exists sim. rewrite Hg in Hd, Hl. simpl in Hd, Hl.
  split; [exact Hd | split; [| split; [exact Hr | split]]].
  - rewrite Hl. apply (mapM_length link_of_relation records [] []).
    rewrite mapM_link_silent, E. reflexivity.
  - rewrite (renderGraph_resume_accepted _ _ _ _ Hok). cbv zeta.
    rewrite Hf, Hlog, app_nil_r.
    destruct (nodes (normalized (VArr records))) as [| n rest] eqn:En.
    + rewrite Hg in En. simpl in En.
      destruct (first_encounter [] (endpoint_stream records));
        [contradiction | discriminate].
    + reflexivity.
  - rewrite loadAndRender_resume_graph.
    + rewrite Hf. reflexivity.
    + rewrite Hg. simpl.
      destruct (first_encounter [] (endpoint_stream records));
        [contradiction | discriminate].
Qed.

Lemma X13_valid_export_witness :
  exists sim,
    map datum (sim_nodes sim)
    = map node_of_id
          (first_encounter []
             (endpoint_stream [relation_typed (VNum 1) (VNum 2) "KNOWS"])) /\
    List.length (sim_links sim)
    = List.length [relation_typed (VNum 1) (VNum 2) "KNOWS"] /\
    running sim = true /\
    fst (renderGraph_resume still_engine
           (Responded 200 (Some raw_one_two)) mounted_view)
    = {| svgRef_current := svgRef_current mounted_view;
         svg := if svgRef_current mounted_view
                then with_layer
                       (fresh_layer (List.length (simulations mounted_view))
                                    (normalized raw_one_two))
                       (svg mounted_view)
                else svg mounted_view;
         simulations := simulations mounted_view ++ [subscribed sim];
         console := console mounted_view |} /\
    fst (loadAndRender_resume still_engine
           (Responded 200 (Some (normalized raw_one_two))) mounted_view)
    = {| svgRef_current := svgRef_current mounted_view;
         svg := if svgRef_current mounted_view
                then with_layer
                       (fresh_layer (List.length (simulations mounted_view))
                                    (normalized raw_one_two))
                       (svg mounted_view)
                else svg mounted_view;
         simulations := simulations mounted_view ++ [subscribed sim];
         console := console mounted_view |}.
Proof.
  apply (X13_valid_export_is_drawn still_engine 200
           [relation_typed (VNum 1) (VNum 2) "KNOWS"] mounted_view).
  - reflexivity.
  - discriminate.
  - reflexivity.
Defined.

(** * Invariants of the component's life *)

Lemma update_nth_length {A} (f : A -> A) (l : list A) (j : nat) :
  List.length (update_nth j f l) = List.length l.
Proof.
  revert j. induction l as [| b rest IH]; intros [| j]; simpl; auto.
Qed.

Lemma nothing_removed_refl (v : View) : nothing_removed v v.
Proof.
  split; [lia |]. exists []. now rewrite app_nil_r.
Qed.

Lemma nothing_removed_trans (a b c : View) :
  nothing_removed a b -> nothing_removed b c -> nothing_removed a c.
Proof.
  intros [H1 [e1 E1]] [H2 [e2 E2]]. split; [lia |].
  exists (e1 ++ e2). now rewrite E2, E1, app_assoc.
Qed.

Lemma on_simulation_nothing_removed (k : nat) (f : Simulation -> Simulation)
      (v : View) :
  nothing_removed v (on_simulation k f v).
Proof.
  split; simpl.
  - rewrite update_nth_length. lia.
  - exists []. now rewrite app_nil_r.
Qed.

Lemma timer_stop_nothing_removed (k : nat) (v : View) :
  nothing_removed v (timer_stop k v).
Proof.
  split; simpl.
  - rewrite update_nth_length. lia.
  - exists []. now rewrite app_nil_r.
Qed.

Lemma timer_tick_nothing_removed (engine : Engine) (k : nat) (v : View) :
  nothing_removed v (timer_tick engine k v).
Proof.
  unfold timer_tick.
  destruct (nth_error (simulations v) k) as [sim |];
    [| apply nothing_removed_refl].
  destruct (running sim); [| apply nothing_removed_refl].
  destruct (listening (tick engine sim)).
  - split; simpl.
    + rewrite update_nth_length. lia.
    + exists []. rewrite app_nil_r, map_map. apply map_ext.
      intro l. now destruct (Nat.eqb (layer_simulation l) k).
  - split; simpl.
    + rewrite update_nth_length. lia.
    + exists []. now rewrite app_nil_r.
Qed.

Lemma setup_result_nothing_removed (v : View) (sim : Simulation) (l : Layer)
      (c : Console) :
  nothing_removed v
    {| svgRef_current := svgRef_current v;
       svg := if svgRef_current v then with_layer l (svg v) else svg v;
       simulations := simulations v ++ [sim];
       console := c |}.
Proof.
  split; simpl.
  - rewrite length_app. lia.
  - destruct (svgRef_current v); simpl.
    + exists [bound_data l]. now rewrite map_app.
    + exists []. now rewrite app_nil_r.
Qed.

Lemma set_console_nothing_removed (c : Console) (v : View) :
  nothing_removed v (set_console c v).
Proof.
  split; simpl; [lia |]. exists []. now rewrite app_nil_r.
Qed.

Lemma renderGraph_resume_nothing_removed (engine : Engine)
      (outcome : fetch_outcome value) (v : View) :
  nothing_removed v (fst (renderGraph_resume engine outcome v)).
Proof.
  destruct (transport_failure outcome) eqn:Ht.
  - rewrite (renderGraph_transport_failure _ _ _ Ht).
    apply set_console_nothing_removed.
  - destruct outcome as [e | status [rawData |]]; simpl in Ht;
      [discriminate | |].
    + apply negb_false_iff in Ht.
      rewrite (renderGraph_resume_accepted _ _ _ _ Ht). cbv zeta.
      destruct (nodes (normalized rawData)).
      * eapply nothing_removed_trans; apply set_console_nothing_removed.
      * destruct (forceSimulation engine (normalized rawData)).
        -- apply setup_result_nothing_removed.
        -- eapply nothing_removed_trans; apply set_console_nothing_removed.
    + apply negb_false_iff in Ht.
      unfold renderGraph_resume, try_catch. rewrite Ht.
      apply set_console_nothing_removed.
Qed.

Lemma loadAndRender_resume_nothing_removed (engine : Engine)
      (outcome : fetch_outcome Graph) (v : View) :
  nothing_removed v (fst (loadAndRender_resume engine outcome v)).
Proof.
  destruct outcome as [e | status [data |]].
  - apply set_console_nothing_removed.
  - destruct (nodes data) as [| n rest] eqn:En.
    + unfold loadAndRender_resume, try_catch. rewrite En.
      apply nothing_removed_refl.
    + rewrite loadAndRender_resume_graph by (rewrite En; discriminate).
      destruct (forceSimulation engine data).
      * apply setup_result_nothing_removed.
      * apply set_console_nothing_removed.
  - apply set_console_nothing_removed.
Qed.

Section Traces.

Variable P : Type.
Variable engine : Engine.
Variable resume : fetch_outcome P -> Eff View unit.

Hypothesis resume_keeps :
  forall outcome v, nothing_removed v (fst (resume outcome v)).

Lemma step_nothing_removed (p : Page) (ev : event P) :
  nothing_removed (view p) (view (step P engine resume p ev)).
Proof.
  destruct ev as [| url | | k outcome | k | k | k j e | k j e | k j e];
    cbn [step].
  - destruct (stage p); try apply nothing_removed_refl.
    unfold run_effect. simpl. split; simpl; [lia |].
    exists []. now rewrite app_nil_r.
  - destruct (stage p); try apply nothing_removed_refl.
    destruct (String.eqb url (dataUrl p)); [apply nothing_removed_refl |].
    unfold run_effect. simpl.
    destruct (svgRef_current (view p)); apply nothing_removed_refl.
  - destruct (stage p); try apply nothing_removed_refl.
    split; simpl; [lia |]. exists []. now rewrite app_nil_r.
  - unfold settle.
    destruct (nth_error (requests p) k) as [r |];
      [| apply nothing_removed_refl].
    destruct (in_flight r); [| apply nothing_removed_refl].
    pose proof (resume_keeps outcome (view p)) as H.
    cbn [view set_requests].
    destruct (resume outcome (view p)) as [v [u | e]]; exact H.
  - apply timer_tick_nothing_removed.
  - apply timer_stop_nothing_removed.
  - apply on_simulation_nothing_removed.
  - apply on_simulation_nothing_removed.
  - apply on_simulation_nothing_removed.
Qed.

Lemma run_nothing_removed (trace : list (event P)) (p : Page) :
  nothing_removed (view p) (view (run P engine resume p trace)).
Proof.
  unfold run. revert p. induction trace as [| ev rest IH]; intro p; simpl.
  - apply nothing_removed_refl.
  - eapply nothing_removed_trans; [apply step_nothing_removed | apply IH].
Qed.

End Traces.

(** X14: along every sequence of events (mount, prop changes, unmount,
    settled fetches, ticks, timer stops, drags) neither component ever
    removes a simulation or a layer: the simulations never get fewer, and
    the layers drawn so far stay in the svg with the data bound to them, new
    layers coming after them.  Graphs of successive loads pile up in the
    same svg. *)
Theorem X14_nothing_is_ever_removed
        (engine : Engine) (p : Page)
        (js_trace : list (event value)) (tsx_trace : list (event Graph)) :
  nothing_removed (view p) (view (js_run engine p js_trace)) /\
  nothing_removed (view p) (view (tsx_run engine p tsx_trace)).
Proof.
  split.
  - apply run_nothing_removed. apply renderGraph_resume_nothing_removed.
  - apply run_nothing_removed. apply loadAndRender_resume_nothing_removed.
Qed.

(** X15: along every sequence of events no exception of either component
    reaches the page's global handler: each async load ends in its catch
    block, and nothing else of the component throws. *)
Theorem X15_no_exception_escapes
        (engine : Engine) (p : Page)
        (js_trace : list (event value)) (tsx_trace : list (event Graph)) :
  unhandled (js_run engine p js_trace) = unhandled p /\
  unhandled (tsx_run engine p tsx_trace) = unhandled p.
Proof.
  split.
  - unfold js_run, run. revert p.
    induction js_trace as [| ev rest IH]; intro p; simpl; [reflexivity |].
    rewrite IH. apply js_step_unhandled.
  - unfold tsx_run, run. revert p.
    induction tsx_trace as [| ev rest IH]; intro p; simpl; [reflexivity |].
    rewrite IH. apply tsx_step_unhandled.
Qed.

(** * The conversion script *)

Lemma append_cancel (d a b : string) :
  (d ++ a)%string = (d ++ b)%string -> a = b.
Proof.
  induction d as [| ch rest IH]; simpl; intro H; [exact H |].
  inversion H. now apply IH.
Qed.

(** The script never writes over its input: the two paths differ. *)
Lemma output_is_not_input (env : ScriptEnv) :
  String.eqb (OUTPUT_PATH env) (INPUT_PATH env) = false.
Proof.
  apply String.eqb_neq. unfold OUTPUT_PATH, INPUT_PATH, path_resolve.
  intro H. apply append_cancel in H. discriminate H.
Qed.

(** The script, path by path. *)
Lemma conversion_script_run (env : ScriptEnv) (w : World) :
  conversion_script env w =
  match file_content (files w) (INPUT_PATH env) with
  | None =>
      (set_diagnostics
         (diagnostics w ++
          [ConsoleError script_failed_msg
             (JsError ("ENOENT: " ++ INPUT_PATH env)%string)]) w,
       Normal tt)
  | Some text =>
      match JSON_parse env text with
      | Throw e =>
          (set_diagnostics
             (diagnostics w ++ [ConsoleError script_failed_msg e]) w,
           Normal tt)
      | Normal rawData =>
          if existsb (String.eqb (OUTPUT_PATH env)) (read_only w)
          then
            (set_diagnostics
               (diagnostics w ++ normalizer_log rawData ++
                [ConsoleError script_failed_msg
                   (JsError ("EACCES: " ++ OUTPUT_PATH env)%string)]) w,
             Normal tt)
          else
            ({| files := (OUTPUT_PATH env,
                          JSON_stringify env (normalized rawData)) :: files w;
                read_only := read_only w;
                diagnostics := diagnostics w ++ normalizer_log rawData;
                stdout := stdout w ++ success_report env |},
             Normal tt)
      end
  end.
Proof.
  unfold conversion_script, try_catch, bind, readFileSync, lift.
  destruct (file_content (files w) (INPUT_PATH env)) as [text |];
    [| reflexivity].
  destruct (JSON_parse env text) as [rawData | e]; [| reflexivity].
  unfold on_diagnostics at 1. rewrite transformNeo4jData_on.
  unfold writeFileSync. cbn [read_only set_diagnostics].
  destruct (existsb (String.eqb (OUTPUT_PATH env)) (read_only w)).
  - unfold on_diagnostics, console_error, set_diagnostics. simpl.
    now rewrite <- app_assoc.
  - unfold console_log, set_stdout, set_files, success_report. simpl.
    now rewrite <- !app_assoc.
Qed.

(** X16: the script never throws, and it reports success exactly when it
    wrote the output.  Either it fails (input missing, input not JSON,
    output not writable): no file changes, nothing is printed, and the last
    diagnostic is the script's own error; or it succeeds: the input parsed,
    the output path now holds the printed graph of the normalizer, the three
    report lines are printed and the only diagnostics are the
    normalizer's. *)
Theorem X16_script_reports_success_iff_written
        (env : ScriptEnv) (w : World) :
  snd (conversion_script env w) = Normal tt /\
  read_only (fst (conversion_script env w)) = read_only w /\
  ((files (fst (conversion_script env w)) = files w /\
    stdout (fst (conversion_script env w)) = stdout w /\
    exists earlier e,
      diagnostics (fst (conversion_script env w))
      = diagnostics w ++ earlier ++ [ConsoleError script_failed_msg e]) \/
   (exists text rawData,
      file_content (files w) (INPUT_PATH env) = Some text /\
      JSON_parse env text = Normal rawData /\
      files (fst (conversion_script env w))
      = (OUTPUT_PATH env, JSON_stringify env (normalized rawData)) :: files w /\
      stdout (fst (conversion_script env w)) = stdout w ++ success_report env /\
      diagnostics (fst (conversion_script env w))
      = diagnostics w ++ normalizer_log rawData)).
Proof.
  rewrite conversion_script_run.
  destruct (file_content (files w) (INPUT_PATH env)) as [text |] eqn:Ef.
  - destruct (JSON_parse env text) as [rawData | e] eqn:Ep.
    + destruct (existsb (String.eqb (OUTPUT_PATH env)) (read_only w)).
      * simpl. repeat split. left. repeat split.
        now exists (normalizer_log rawData),
                   (JsError ("EACCES: " ++ OUTPUT_PATH env)%string).
      * simpl. repeat split. right. exists text, rawData. repeat split.
        exact Ep.
    + simpl. repeat split. left. repeat split. now exists [], e.
  - simpl. repeat split. left. repeat split.
    now exists [], (JsError ("ENOENT: " ++ INPUT_PATH env)%string).
Qed.

(** X17: when the input file exists, parses, and the output path can be
    written, the conversion goes through: afterwards the output path reads
    back as the printed graph of the normalizer for the parsed value, the
    input file still reads as before, and the report is printed. *)
Theorem X17_script_writes_normalized_graph
        (env : ScriptEnv) (w : World) (text : string) (rawData : value) :
  file_content (files w) (INPUT_PATH env) = Some text ->
  JSON_parse env text = Normal rawData ->
  existsb (String.eqb (OUTPUT_PATH env)) (read_only w) = false ->
  file_content (files (fst (conversion_script env w))) (OUTPUT_PATH env)
  = Some (JSON_stringify env (normalized rawData)) /\
  file_content (files (fst (conversion_script env w))) (INPUT_PATH env)
  = Some text /\
  stdout (fst (conversion_script env w)) = stdout w ++ success_report env.
Proof.
  intros Hf Hp Hw. rewrite conversion_script_run, Hf, Hp, Hw. simpl.
  rewrite String.eqb_refl, output_is_not_input.
  repeat split. exact Hf.
Qed.

Lemma X17_script_writes_witness :
  file_content
    (files (fst (conversion_script toy_env
                   {| files := [(INPUT_PATH toy_env, "[]")];
                      read_only := []; diagnostics := []; stdout := [] |})))
    (OUTPUT_PATH toy_env)
  = Some (JSON_stringify toy_env (normalized (VArr []))) /\
  file_content
    (files (fst (conversion_script toy_env
                   {| files := [(INPUT_PATH toy_env, "[]")];
                      read_only := []; diagnostics := []; stdout := [] |})))
    (INPUT_PATH toy_env)
  = Some "[]" /\
  stdout (fst (conversion_script toy_env
                 {| files := [(INPUT_PATH toy_env, "[]")];
                    read_only := []; diagnostics := []; stdout := [] |}))
  = stdout {| files := [(INPUT_PATH toy_env, "[]")];
              read_only := []; diagnostics := []; stdout := [] |}
    ++ success_report toy_env.
Proof.
  apply (X17_script_writes_normalized_graph toy_env
           {| files := [(INPUT_PATH toy_env, "[]")];
              read_only := []; diagnostics := []; stdout := [] |}
           "[]" (VArr [])); reflexivity.
Defined.

(** X18: a failed transform does not fail the script.  When the input
    parses to something that is not an array, the script still writes the
    output file (the printed empty graph) and prints the success report;
    the only trace of the failure is the normalizer's own error on the
    console. *)
Theorem X18_script_succeeds_on_failed_transform
        (env : ScriptEnv) (w : World) (text : string) (rawData : value) :
  file_content (files w) (INPUT_PATH env) = Some text ->
  JSON_parse env text = Normal rawData ->
  existsb (String.eqb (OUTPUT_PATH env)) (read_only w) = false ->
  (forall records, rawData <> VArr records) ->
  fst (conversion_script env w)
  = {| files := (OUTPUT_PATH env, JSON_stringify env empty_graph) :: files w;
       read_only := read_only w;
       diagnostics := diagnostics w ++
                      [ConsoleError transform_failed_msg
                         (JsError not_an_array_msg)];
       stdout := stdout w ++ success_report env |}.
Proof.
  intros Hf Hp Hw Hna. rewrite conversion_script_run, Hf, Hp, Hw.
  unfold normalized, normalizer_log.
  rewrite (transformNeo4jData_not_array rawData [] Hna). reflexivity.
Qed.

Lemma X18_script_succeeds_witness :
  fst (conversion_script
         {| JSON_parse := fun _ => Normal (VObj [("nodes", VArr [])]);
            JSON_stringify := fun _ => "{}";
            dirname := "/app" |}
         {| files := [("/app/public/data/neo4j_query_table_data_2025-3-19.json",
                       "{}")];
            read_only := []; diagnostics := []; stdout := [] |})
  = {| files := [("/app/public/data/graph_data.json", "{}");
                 ("/app/public/data/neo4j_query_table_data_2025-3-19.json",
                  "{}")];
       read_only := [];
       diagnostics := [ConsoleError transform_failed_msg
                         (JsError not_an_array_msg)];
       stdout := success_report
                   {| JSON_parse := fun _ => Normal (VObj [("nodes", VArr [])]);
                      JSON_stringify := fun _ => "{}";
                      dirname := "/app" |} |}.
Proof.
  apply (X18_script_succeeds_on_failed_transform
           {| JSON_parse := fun _ => Normal (VObj [("nodes", VArr [])]);
              JSON_stringify := fun _ => "{}";
              dirname := "/app" |}
           {| files := [("/app/public/data/neo4j_query_table_data_2025-3-19.json",
                         "{}")];
              read_only := []; diagnostics := []; stdout := [] |}
           "{}" (VObj [("nodes", VArr [])])).
  - reflexivity.
  - reflexivity.
  - reflexivity.
  - intros records H. discriminate H.
Defined.

(** * Repeated records *)

Lemma first_encounter_all_seen (l seen : list Z) :
  (forall n, In n l -> In n seen) -> first_encounter seen l = [].
Proof.
  revert seen. induction l as [| n rest IH]; intros seen H; simpl;
    [reflexivity |].
  assert (Hn : Set_has seen n = true)
    by (apply Set_has_In; apply H; now left).
  rewrite Hn. apply IH. intros m Hm. apply H. now right.
Qed.

Lemma endpoint_stream_app (a b : list value) :
  endpoint_stream (a ++ b) = endpoint_stream a ++ endpoint_stream b.
Proof. unfold endpoint_stream. apply flat_map_app. Qed.

Lemma first_encounter_twice (l : list Z) :
  first_encounter [] (l ++ l) = first_encounter [] l.
Proof.
  rewrite first_encounter_app.
  rewrite (first_encounter_all_seen l ([] ++ first_encounter [] l)).
  - apply app_nil_r.
  - intros n Hn.
    destruct (first_encounter_complete l [] n Hn) as [[] | Hin].
    exact Hin.
Qed.

(** X19: repeating the records of an array the normalizer handles adds
    links and no nodes: the doubled array yields the same nodes in the same
    order, and each link twice, the second run after the first. *)
Theorem X19_repeated_records_add_no_nodes
        (records : list value) (c c1 : Console) (g : Graph) :
  transform_try (VArr records) c = (c1, Normal g) ->
  exists c2,
    transform_try (VArr (records ++ records)) c
    = (c2, Normal {| nodes := nodes g; links := links g ++ links g |}).
Proof.
  rewrite !transform_try_array, mapM_link_app.
  destruct (snd (mapM link_of_relation records [])) as [ls | e];
    [| discriminate].
  intro H. inversion H; subst; clear H. simpl.
  rewrite endpoint_stream_app, first_encounter_twice.
  eexists. reflexivity.
Qed.

Lemma X19_repeated_records_witness :
  exists c2,
    transform_try (VArr ([relation (VNum 1) (VNum 2)] ++
                         [relation (VNum 1) (VNum 2)])) []
    = (c2,
       Normal {| nodes := nodes {| nodes := [mkNode "1" "Node 1" "Entity";
                                             mkNode "2" "Node 2" "Entity"];
                                   links := [mkLink "1" "2" default_link_type] |};
                 links := links {| nodes := [mkNode "1" "Node 1" "Entity";
                                             mkNode "2" "Node 2" "Entity"];
                                   links := [mkLink "1" "2" default_link_type] |}
                          ++
                          links {| nodes := [mkNode "1" "Node 1" "Entity";
                                             mkNode "2" "Node 2" "Entity"];
                                   links := [mkLink "1" "2" default_link_type] |}
              |}).
Proof.
  apply (X19_repeated_records_add_no_nodes [relation (VNum 1) (VNum 2)] [] []).
  reflexivity.
Defined.
